(** * stock-momentum: the metric engine and the ranker of [app.py]

    A shallow embedding of [calculate_metrics] and of the filter / sort /
    truncate block of [main_app], followed by the properties the
    specification states about them.

    Conventions of the embedding.
    - Python [int]s are [Z]; negative indices, [tail], [head] and slices
      follow the Python / pandas rules, also for zero and negative
      arguments.
    - A [numpy.float64] is modelled by [Float64.float64]: exact rational
      arithmetic on the finite values together with the IEEE special values
      [NaN], [+inf] and [-inf].  Rounding and the sign of zero are not
      modelled (a zero is taken as [+0.0]); everything that the code leaves
      to IEEE semantics (division by zero, comparisons with [NaN], [NaN]
      closes read from a CSV hole, infinite closes, which the rolling
      window of pandas reads as [NaN]) is.
    - A Python exception is a value of [exn]; code that may raise lives in
      the error monad [result]; [try ... except] is a match on the result.
    - [calculate_metrics] assigns to [df.index] of the frames it is given:
      the embedding returns the mutated history next to the metrics and the
      log records emitted on the way. *)

From Stdlib Require Import ZArith QArith List String Ascii Bool Lia.
From Stdlib Require Import Permutation Sorted.
Import ListNotations.

Local Open Scope Z_scope.

(* ------------------------------------------------------------------ *)
(** ** Floating point values *)

Module Float64.

Inductive float64 : Type :=
| NaN
| NegInf
| Fin (q : Q)
| PosInf.

Definition isnan (x : float64) : bool :=
  match x with NaN => true | _ => false end.

Definition notnan (x : float64) : bool := negb (isnan x).

Definition isinf (x : float64) : bool :=
  match x with PosInf | NegInf => true | _ => false end.

Definition of_Z (z : Z) : float64 := Fin (inject_Z z).

Definition zero : float64 := of_Z 0.
Definition one : float64 := of_Z 1.

Definition neg (x : float64) : float64 :=
  match x with
  | NaN => NaN
  | NegInf => PosInf
  | Fin q => Fin (Qopp q)
  | PosInf => NegInf
  end.

Definition add (x y : float64) : float64 :=
  match x, y with
  | NaN, _ | _, NaN => NaN
  | PosInf, NegInf | NegInf, PosInf => NaN
  | PosInf, _ | _, PosInf => PosInf
  | NegInf, _ | _, NegInf => NegInf
  | Fin a, Fin b => Fin (Qplus a b)
  end.

Definition sub (x y : float64) : float64 := add x (neg y).

(** Sign of a rational as a comparison with zero. *)
Definition Qsign (q : Q) : comparison := Qcompare q (inject_Z 0).

Definition div (x y : float64) : float64 :=
  match x, y with
  | NaN, _ | _, NaN => NaN
  | Fin a, Fin b =>
      match Qsign b with
      | Eq => match Qsign a with
              | Eq => NaN
              | Gt => PosInf
              | Lt => NegInf
              end
      | _ => Fin (Qdiv a b)
      end
  | Fin _, _ => zero
  | PosInf, Fin b => match Qsign b with Lt => NegInf | _ => PosInf end
  | NegInf, Fin b => match Qsign b with Lt => PosInf | _ => NegInf end
  | _, _ => NaN
  end.

(** IEEE comparison: unordered ([None]) as soon as one side is [NaN]. *)
Definition compare (x y : float64) : option comparison :=
  match x, y with
  | NaN, _ | _, NaN => None
  | NegInf, NegInf => Some Eq
  | NegInf, _ => Some Lt
  | _, NegInf => Some Gt
  | PosInf, PosInf => Some Eq
  | PosInf, _ => Some Gt
  | _, PosInf => Some Lt
  | Fin a, Fin b => Some (Qcompare a b)
  end.

Definition eqb (x y : float64) : bool :=
  match compare x y with Some Eq => true | _ => false end.
Definition ltb (x y : float64) : bool :=
  match compare x y with Some Lt => true | _ => false end.
Definition leb (x y : float64) : bool :=
  match compare x y with Some Lt | Some Eq => true | _ => false end.
Definition gtb (x y : float64) : bool := ltb y x.
Definition geb (x y : float64) : bool := leb y x.

(** Left-to-right sum, the order in which pandas accumulates a window. *)
Definition sum (xs : list float64) : float64 := fold_left add xs zero.

End Float64.

Import Float64.

(* ------------------------------------------------------------------ *)
(** ** Python exceptions and the error monad *)

Inductive exn : Type :=
| IndexError
| ValueError
| AttributeError
| KeyError.

Definition result (A : Type) : Type := (exn + A)%type.

Definition ok {A : Type} (a : A) : result A := inr a.
Definition raise {A : Type} (e : exn) : result A := inl e.

Definition bind {A B : Type} (m : result A) (k : A -> result B) : result B :=
  match m with
  | inl e => inl e
  | inr a => k a
  end.

Notation "x <- m ;; k" := (bind m (fun x => k))
  (at level 61, m at next level, right associativity).

(* ------------------------------------------------------------------ *)
(** ** Positional access: [len], [iloc], slices, [tail], [head] *)

Definition len {A : Type} (s : list A) : Z := Z.of_nat (List.length s).

(** [s.iloc[i]] (also [index[i]]): a negative [i] counts from the end;
    out of bounds raises [IndexError]. *)
Definition iloc {A : Type} (s : list A) (i : Z) : result A :=
  let j := if i <? 0 then i + len s else i in
  if (j <? 0) || (len s <=? j) then raise IndexError
  else match nth_error s (Z.to_nat j) with
       | Some v => ok v
       | None => raise IndexError
       end.

(** Bound of a slice, clipped to [0 .. len s] the way Python does. *)
Definition slice_bound {A : Type} (s : list A) (i : Z) : nat :=
  Z.to_nat (if i <? 0 then Z.max 0 (i + len s) else Z.min i (len s)).

(** [s.iloc[start:]] and [s.iloc[:stop]]. *)
Definition slice_from {A : Type} (s : list A) (start : Z) : list A :=
  skipn (slice_bound s start) s.

Definition slice_to {A : Type} (s : list A) (stop : Z) : list A :=
  firstn (slice_bound s stop) s.

(** pandas [NDFrame.tail]: [iloc[0:0]] when [n == 0], else [iloc[-n:]]. *)
Definition tail {A : Type} (n : Z) (s : list A) : list A :=
  if n =? 0 then [] else slice_from s (- n).

(** pandas [NDFrame.head]: [iloc[:n]]. *)
Definition head {A : Type} (n : Z) (s : list A) : list A :=
  slice_to s n.

(* ------------------------------------------------------------------ *)
(** ** Timestamps of the date index *)

(** A pandas [Timestamp]: the wall-clock time in nanoseconds since
    1970-01-01T00:00 and, when it is timezone-aware, its offset to UTC. *)
Record Timestamp : Type := {
  wall : Z;
  utcoffset : option Z
}.

(** [pd.to_datetime(index, utc=True)]: aware values are converted to UTC,
    naive ones are taken to be UTC already. *)
Definition to_datetime_utc (t : Timestamp) : Timestamp :=
  {| wall := match utcoffset t with
             | Some off => wall t - off
             | None => wall t
             end;
     utcoffset := Some 0 |}.

(** [.tz_localize(None)]: drop the timezone, keep the wall clock. *)
Definition tz_localize_none (t : Timestamp) : Timestamp :=
  {| wall := wall t; utcoffset := None |}.

Definition ns_per_day : Z := 86400000000000.

(** Proleptic Gregorian (year, month, day) of a day count since 1970-01-01. *)
Definition civil_from_days (days : Z) : Z * Z * Z :=
  let z := days + 719468 in
  let era := z / 146097 in
  let doe := z - era * 146097 in
  let yoe := (doe - doe / 1460 + doe / 36524 - doe / 146096) / 365 in
  let doy := doe - (365 * yoe + yoe / 4 - yoe / 100) in
  let mp := (5 * doy + 2) / 153 in
  let d := doy - (153 * mp + 2) / 5 + 1 in
  let m := if mp <? 10 then mp + 3 else mp - 9 in
  let y := yoe + era * 400 + (if m <=? 2 then 1 else 0) in
  (y, m, d).

Definition digit (n : Z) : ascii := ascii_of_nat (48 + Z.to_nat (n mod 10)).

Definition pad2 (n : Z) : string :=
  String (digit (n / 10)) (String (digit n) EmptyString).

Definition pad4 (n : Z) : string :=
  String (digit (n / 1000)) (String (digit (n / 100)) (pad2 n)).

(** [ts.strftime('%Y-%m-%d')] (a [Timestamp] lies between the years 1677
    and 2262, so the year has four digits). *)
Definition strftime_Ymd (t : Timestamp) : string :=
  let '(y, m, d) := civil_from_days (wall t / ns_per_day) in
  (pad4 y ++ "-" ++ pad2 m ++ "-" ++ pad2 d)%string.

(* ------------------------------------------------------------------ *)
(** ** History records *)

(** One row of a price history: the index entry and the [Close] column
    (the only column [calculate_metrics] reads). *)
Record Bar : Type := {
  date : Timestamp;
  Close : float64
}.

Definition DataFrame : Type := list Bar.

(** An element of [history_data]: [{'ticker': ..., 'data': df}]. *)
Record HistoryItem : Type := {
  ticker : string;
  data : DataFrame
}.

Definition index (df : DataFrame) : list Timestamp := map date df.
Definition col_Close (df : DataFrame) : list float64 := map Close df.

(** [df.index = pd.to_datetime(df.index, utc=True).tz_localize(None)] *)
Definition normalize_index (df : DataFrame) : DataFrame :=
  map (fun b => {| date := tz_localize_none (to_datetime_utc (date b));
                   Close := Close b |}) df.

(* ------------------------------------------------------------------ *)
(** ** [Series.rolling(window).mean()] *)

(** The observations the fixed window ending at position [i] covers. *)
Definition window_at (w : nat) (xs : list float64) (i : nat) : list float64 :=
  let stop := S i in
  let start := (stop - w)%nat in
  firstn (stop - start) (skipn start xs).

(** Mean of one window: [NaN]s are not counted; fewer than [minp]
    observations (or none at all) give [NaN].  pandas accumulates the
    window with a compensated sum, which on finite values and in exact
    arithmetic is their plain sum; an infinity never reaches the window
    (see [prep_values]). *)
Definition calc_mean (minp : nat) (win : list float64) : float64 :=
  let obs := filter notnan win in
  let nobs := List.length obs in
  if (minp <=? nobs)%nat && (0 <? nobs)%nat
  then div (sum obs) (of_Z (Z.of_nat nobs))
  else NaN.

(** What the window functions of pandas are given: the values of the
    series with every infinity replaced by [NaN]. *)
Definition prep_values (xs : list float64) : list float64 :=
  map (fun x => if isinf x then NaN else x) xs.

(** [s.rolling(window=window).mean()]; [min_periods] defaults to the
    window size; a negative window is refused. *)
Definition rolling_mean (window : Z) (xs : list float64)
  : result (list float64) :=
  if window <? 0 then raise ValueError
  else
    let w := Z.to_nat window in
    let values := prep_values xs in
    ok (map (fun i => calc_mean w (window_at w values i))
            (seq 0 (List.length values))).

(* ------------------------------------------------------------------ *)
(** ** [calculate_metrics] *)

(** [params]: the two periods in whole months. *)
Record Params : Type := {
  p_momentum : Z;
  p_moving_average : Z
}.

(** One dictionary appended to [metrics], one row of [df_metrics]. *)
Record MetricRow : Type := {
  m_ticker : string;
  current_day : string;
  current_price : float64;
  momentum : float64;
  moving_average : float64
}.

Inductive LogRecord : Type :=
| InfoCalculating (n : Z)
| WarningProcess (tk : string) (e : exn)
| InfoCalculated (n : Z)
| ErrorMetrics (e : exn).

(** The body of the inner [try], after the index assignment.  [ok None]
    is a [continue]; an exception is left to the enclosing [except]. *)
Definition item_metrics (tail_momentum tail_moving_average : Z)
  (tk : string) (df : DataFrame) : result (option MetricRow) :=
  let momentum_df := tail tail_momentum df in
  if len momentum_df <? tail_momentum then ok None
  else
    last_close <- iloc (col_Close momentum_df) (-1) ;;
    first_close <- iloc (col_Close momentum_df) 0 ;;
    let mom := sub (div last_close first_close) one in
    let moving_average_df := tail tail_moving_average df in
    if len moving_average_df <? tail_moving_average then ok None
    else
      rolled <- rolling_mean tail_moving_average (col_Close moving_average_df) ;;
      ma <- iloc rolled (-1) ;;
      day <- iloc (index df) (-1) ;;
      price <- iloc (col_Close df) (-1) ;;
      ok (Some {| m_ticker := tk;
                  current_day := strftime_Ymd day;
                  current_price := price;
                  momentum := mom;
                  moving_average := ma |}).

(** The [for item in history_data] loop.  Each frame gets its index
    replaced in place; [metrics] and the log grow at their ends. *)
Fixpoint process_items (tail_momentum tail_moving_average : Z)
  (history_data : list HistoryItem)
  (metrics : list MetricRow) (log : list LogRecord)
  : list HistoryItem * list MetricRow * list LogRecord :=
  match history_data with
  | [] => ([], metrics, log)
  | item :: rest =>
      let df := normalize_index (data item) in
      let item' := {| ticker := ticker item; data := df |} in
      let '(metrics', log') :=
        match item_metrics tail_momentum tail_moving_average (ticker item) df with
        | inr (Some row) => (metrics ++ [row], log)
        | inr None => (metrics, log)
        | inl e => (metrics, log ++ [WarningProcess (ticker item) e])
        end in
      let '(rest', metrics'', log'') :=
        process_items tail_momentum tail_moving_average rest metrics' log' in
      (item' :: rest', metrics'', log'')
  end.

(** A [pd.DataFrame] built from a list of dictionaries: its columns are the
    keys of the dictionaries, so the frame of an empty list has none. *)
Record MetricsFrame : Type := {
  columns : list string;
  rows : list MetricRow
}.

Definition metric_columns : list string :=
  ["ticker"; "current_day"; "current_price"; "momentum"; "moving_average"]%string.

Definition pd_DataFrame (metrics : list MetricRow) : MetricsFrame :=
  match metrics with
  | [] => {| columns := []; rows := [] |}
  | _ => {| columns := metric_columns; rows := metrics |}
  end.

(** What a call leaves behind: the history with the indexes it rewrote,
    the frame it returns and the records it logged. *)
Record Run : Type := {
  history_after : list HistoryItem;
  df_metrics : MetricsFrame;
  logged : list LogRecord
}.

(** The body of the outer [try]. *)
Definition calculate_metrics_body (history_data : list HistoryItem)
  (params : Params) : result Run :=
  let log0 := [InfoCalculating (len history_data)] in
  let tail_momentum := 21 * p_momentum params in
  let tail_moving_average := 21 * p_moving_average params in
  let '(history', metrics, log1) :=
    process_items tail_momentum tail_moving_average history_data [] log0 in
  let df := pd_DataFrame metrics in
  ok {| history_after := history';
        df_metrics := df;
        logged := log1 ++ [InfoCalculated (len (rows df))] |}.

Definition calculate_metrics (history_data : list HistoryItem)
  (params : Params) : Run :=
  match calculate_metrics_body history_data params with
  | inr run => run
  | inl e => {| history_after := history_data;
                df_metrics := pd_DataFrame [];
                logged := [InfoCalculating (len history_data); ErrorMetrics e] |}
  end.

(* ------------------------------------------------------------------ *)
(** ** The ranking block of [main_app] *)

(** [df.empty]: one of the two axes has length zero. *)
Definition empty (df : MetricsFrame) : bool :=
  match columns df, rows df with
  | _ :: _, _ :: _ => false
  | _, _ => true
  end.

Definition has_column (df : MetricsFrame) (name : string) : bool :=
  existsb (String.eqb name) (columns df).

(** Attribute access to a float column, [df.current_price]: a frame
    without that column raises [AttributeError]. *)
Definition getattr_column (df : MetricsFrame) (name : string)
  (field : MetricRow -> float64) : result (list float64) :=
  if has_column df name then ok (map field (rows df))
  else raise AttributeError.

(** Element-wise [a > b] of two aligned series. *)
Fixpoint series_gt (a b : list float64) : list bool :=
  match a, b with
  | x :: a', y :: b' => gtb x y :: series_gt a' b'
  | _, _ => []
  end.

Fixpoint select_mask (mask : list bool) (rs : list MetricRow)
  : list MetricRow :=
  match mask, rs with
  | keep :: mask', r :: rs' =>
      if keep then r :: select_mask mask' rs' else select_mask mask' rs'
  | _, _ => []
  end.

(** [df[mask]]: the rows whose mask entry is [True]; the columns stay. *)
Definition getitem_mask (df : MetricsFrame) (mask : list bool) : MetricsFrame :=
  {| columns := columns df; rows := select_mask mask (rows df) |}.

(** Ascending stable sort on [momentum] of rows that hold no [NaN]. *)
Fixpoint insert_asc (r : MetricRow) (l : list MetricRow) : list MetricRow :=
  match l with
  | [] => [r]
  | x :: l' =>
      if leb (momentum r) (momentum x) then r :: l
      else x :: insert_asc r l'
  end.

Fixpoint argsort_asc (l : list MetricRow) : list MetricRow :=
  match l with
  | [] => []
  | r :: l' => insert_asc r (argsort_asc l')
  end.

Definition momentum_isnan (r : MetricRow) : bool := isnan (momentum r).
Definition momentum_notnan (r : MetricRow) : bool := notnan (momentum r).

(** The descending order pandas computes for a float key: the rows
    whose key is [NaN] are set aside, the others are reversed, sorted
    ascending and reversed again, and the [NaN] rows are appended
    ([na_position='last']).  The order pandas gives to rows of equal
    momentum is not specified; the embedding keeps them in their prior
    order. *)
Definition nargsort_desc (rs : list MetricRow) : list MetricRow :=
  let non_nans := filter momentum_notnan rs in
  let nans := filter momentum_isnan rs in
  rev (argsort_asc (rev non_nans)) ++ nans.

(** [df.sort_values(by='momentum', ascending=False)]: a frame without
    that column raises [KeyError]. *)
Definition sort_values_momentum_desc (df : MetricsFrame)
  : result MetricsFrame :=
  if has_column df "momentum" then
    ok {| columns := columns df; rows := nargsort_desc (rows df) |}
  else raise KeyError.

Definition head_frame (n : Z) (df : MetricsFrame) : MetricsFrame :=
  {| columns := columns df; rows := head n (rows df) |}.

(** Which branch of the nested [if]s of [main_app] a run ends in. *)
Inductive Outcome : Type :=
| TopAssets (metrics_filter top_assets : MetricsFrame)
| NoAssetPassed        (* st.warning: no asset passed the filter *)
| MetricsError         (* st.error: the metrics frame is empty *)
| LoadError.           (* st.error: no history was loaded *)

(** From [if not metrics_df.empty:] to [top_assets = ...]. *)
Definition rank_block (metrics_df : MetricsFrame) (wallet_size : Z)
  : result Outcome :=
  if negb (empty metrics_df) then
    price <- getattr_column metrics_df "current_price" current_price ;;
    average <- getattr_column metrics_df "moving_average" moving_average ;;
    let metrics_filter := getitem_mask metrics_df (series_gt price average) in
    metrics_sorted <- sort_values_momentum_desc metrics_filter ;;
    if negb (empty metrics_sorted) then
      let top_assets := head_frame wallet_size metrics_sorted in
      ok (TopAssets metrics_filter top_assets)
    else ok NoAssetPassed
  else ok MetricsError.

(** The ranked portfolio a run shows: the rows of [top_assets], nothing
    in the other branches. *)
Definition RankedPortfolio (o : Outcome) : list MetricRow :=
  match o with
  | TopAssets _ top_assets => rows top_assets
  | _ => []
  end.

(** The rows that passed the filter, as reported by a run. *)
Definition above_average (o : Outcome) : list MetricRow :=
  match o with
  | TopAssets metrics_filter _ => rows metrics_filter
  | _ => []
  end.

(** From [if history_data:] on: the periods in days become whole months,
    the metrics are computed and ranked. *)
Definition analysis (history_data : list HistoryItem)
  (momentum_days ma_days wallet_size : Z)
  : result (Outcome * list HistoryItem) :=
  match history_data with
  | _ :: _ =>
      let params := {| p_momentum := momentum_days / 30;
                       p_moving_average := ma_days / 30 |} in
      let run := calculate_metrics history_data params in
      o <- rank_block (df_metrics run) wallet_size ;;
      ok (o, history_after run)
  | [] => ok (LoadError, history_data)
  end.

(** Metric engine followed by ranker, on any history and any parameters. *)
Definition pipeline (history_data : list HistoryItem) (params : Params)
  (wallet_size : Z) : result Outcome :=
  rank_block (df_metrics (calculate_metrics history_data params)) wallet_size.

(** The choices the sidebar form of [main_app] offers. *)
Definition period_options : list Z := [30; 90; 180].
Definition wallet_options : list Z := [5; 10; 15; 20].

(* ------------------------------------------------------------------ *)
(** ** Ticker names and the files of a run *)

Definition contains_char (c : ascii) : string -> bool :=
  fix go (s : string) : bool :=
    match s with
    | EmptyString => false
    | String x rest => Ascii.eqb x c || go rest
    end.

(** [s.split(".")[0]]: what stands before the first dot. *)
Fixpoint split_dot_first (s : string) : string :=
  match s with
  | EmptyString => EmptyString
  | String c rest =>
      if Ascii.eqb c "."%char then EmptyString
      else String c (split_dot_first rest)
  end.

(** [os.path.basename(p)]: what stands after the last slash. *)
Fixpoint basename (p : string) : string :=
  match p with
  | EmptyString => EmptyString
  | String c rest =>
      if contains_char "/"%char rest then basename rest
      else if Ascii.eqb c "/"%char then rest
      else p
  end.

(** [s.replace('.csv', '')]: every occurrence is removed, left to right. *)
Fixpoint replace_csv (s : string) : string :=
  match s with
  | EmptyString => EmptyString
  | String c rest =>
      match rest with
      | String c1 (String c2 (String c3 rest')) =>
          if Ascii.eqb c "."%char && Ascii.eqb c1 "c"%char
             && Ascii.eqb c2 "s"%char && Ascii.eqb c3 "v"%char
          then replace_csv rest'
          else String c (replace_csv rest)
      | _ => String c (replace_csv rest)
      end
  end.

(** [transform_tickers]: the Yahoo Finance name of each B3 ticker. *)
Definition transform_tickers (tickers : list string) : list string :=
  map (fun tk => (tk ++ ".SA")%string) tickers.

(** [create_temp_path]: the folder of a run (creating it is left out). *)
Definition create_temp_path (temp_key source : string) : string :=
  ("./temp/" ++ temp_key ++ "/" ++ source)%string.

(** The file [extract_history_data] writes the history of a ticker to. *)
Definition file_path (path tk : string) : string :=
  (path ++ "/" ++ split_dot_first tk ++ ".csv")%string.

(** The ticker [load_history_data] gives to the history read from a file. *)
Definition loaded_ticker (file : string) : string :=
  replace_csv (basename file).

(* ------------------------------------------------------------------ *)
(** ** Authentication and the session *)

(** The two environment variables [authenticate_user] reads; [None] when
    a variable is not set. *)
Record Environ : Type := {
  env_USER : option string;
  env_PASSWORD : option string
}.

(** A value stored in [st.session_state]. *)
Inductive Value : Type :=
| VBool (b : bool)
| VStr (s : string).

Definition SessionState : Type := list (string * Value).

(** Truth value of a Python object in a condition. *)
Definition truthy_str (s : string) : bool := negb (String.eqb s EmptyString).

Definition truthy_opt (v : option string) : bool :=
  match v with
  | Some s => truthy_str s
  | None => false
  end.

Definition truthy (v : Value) : bool :=
  match v with
  | VBool b => b
  | VStr s => truthy_str s
  end.

(** [st.session_state.get(key, default)] *)
Fixpoint session_get (st : SessionState) (key : string) (default : Value)
  : Value :=
  match st with
  | [] => default
  | (k, v) :: rest => if String.eqb k key then v else session_get rest key default
  end.

(** [st.session_state[key] = v] *)
Fixpoint session_set (st : SessionState) (key : string) (v : Value)
  : SessionState :=
  match st with
  | [] => [(key, v)]
  | (k, v') :: rest =>
      if String.eqb k key then (k, v) :: rest
      else (k, v') :: session_set rest key v
  end.

(** [del st.session_state[key]] *)
Fixpoint session_del (st : SessionState) (key : string) : SessionState :=
  match st with
  | [] => []
  | (k, v) :: rest =>
      if String.eqb k key then rest else (k, v) :: session_del rest key
  end.

(** What the pages show the user about a login. *)
Inductive UiMessage : Type :=
| ErrorNotConfigured
| ErrorFillAllFields
| SuccessLogin
| ErrorInvalidCredentials.

Definition check_authentication (st : SessionState) : Value :=
  session_get st "authenticated" (VBool false).

Definition str_eq_opt (s : string) (v : option string) : bool :=
  match v with
  | Some s' => String.eqb s s'
  | None => false
  end.

(** [authenticate_user]: its answer and the message it shows. *)
Definition authenticate_user (environ : Environ) (username password : string)
  : bool * list UiMessage :=
  let env_user := env_USER environ in
  let env_password := env_PASSWORD environ in
  if negb (truthy_opt env_user) || negb (truthy_opt env_password)
  then (false, [ErrorNotConfigured])
  else (str_eq_opt username env_user && str_eq_opt password env_password, []).

(** [show_login_form] when the form is submitted with the two fields. *)
Definition show_login_form (environ : Environ) (st : SessionState)
  (username password : string) : SessionState * list UiMessage :=
  if negb (truthy_str username) || negb (truthy_str password)
  then (st, [ErrorFillAllFields])
  else
    let '(granted, shown) := authenticate_user environ username password in
    if granted then
      let st1 := session_set st "authenticated" (VBool true) in
      let st2 := session_set st1 "username" (VStr username) in
      (st2, shown ++ [SuccessLogin])
    else (st, shown ++ [ErrorInvalidCredentials]).

(** [show_logout_button] when the button is pressed: every key of the
    session is deleted, in the order of [list(keys())]. *)
Definition show_logout_button (st : SessionState) : SessionState :=
  fold_left session_del (map fst st) st.

(** The page [main] renders for a session. *)
Inductive Page : Type :=
| LoginForm
| MainApp.

Definition main (st : SessionState) : Page :=
  if negb (truthy (check_authentication st)) then LoginForm else MainApp.

(** What a user can do on the page in front of them. *)
Inductive Event : Type :=
| SubmitLogin (username password : string)
| PressLogout.

(** One interaction: a widget acts only when its page is the one shown. *)
Definition interact (environ : Environ) (st : SessionState) (ev : Event)
  : SessionState :=
  match main st, ev with
  | LoginForm, SubmitLogin username password =>
      fst (show_login_form environ st username password)
  | MainApp, PressLogout => show_logout_button st
  | _, _ => st
  end.

Definition interactions (environ : Environ) (st : SessionState)
  (evs : list Event) : SessionState :=
  fold_left (interact environ) evs st.

(* ------------------------------------------------------------------ *)
(** ** The log panel *)

Module StreamlitLogHandler.

Inductive Emoji : Type :=
| Memo
| WarningSign
| CrossMark
| MagnifyingGlass.

(** One dictionary of [self.logs]. *)
Record LogEntry : Type := {
  timestamp : string;
  level : string;
  emoji : Emoji;
  message : string
}.

(** [emoji_map.get(record.levelname, memo)] *)
Definition emoji_of (levelname : string) : Emoji :=
  if String.eqb levelname "INFO" then Memo
  else if String.eqb levelname "WARNING" then WarningSign
  else if String.eqb levelname "ERROR" then CrossMark
  else if String.eqb levelname "DEBUG" then MagnifyingGlass
  else Memo.

(** The colour of the border of a line of the panel. *)
Definition log_color (levelname : string) : string :=
  if String.eqb levelname "INFO" then "#1f77b4"
  else if String.eqb levelname "WARNING" then "#ff7f0e"
  else if String.eqb levelname "ERROR" then "#d62728"
  else if String.eqb levelname "DEBUG" then "#2ca02c"
  else "#1f77b4".

(** The lines the container shows: [self.logs[-10:]] with their colour. *)
Definition render (logs : list LogEntry) : list (string * LogEntry) :=
  map (fun log => (log_color (level log), log)) (slice_from logs (-10)).

(** [emit]: the entry is appended to [self.logs] and the container is
    redrawn.  [now] is the clock reading, [levelname] and [msg] come from
    the record. *)
Definition emit (logs : list LogEntry) (now levelname msg : string)
  : list LogEntry * list (string * LogEntry) :=
  let logs' := logs ++ [ {| timestamp := now;
                           level := levelname;
                           emoji := emoji_of levelname;
                           message := msg |} ] in
  (logs', render logs').

End StreamlitLogHandler.

(* ------------------------------------------------------------------ *)
(** ** Notions of the specification *)

(** The window lengths in trading days. *)
Definition momentum_window (params : Params) : Z := 21 * p_momentum params.
Definition ma_window (params : Params) : Z := 21 * p_moving_average params.

(** The row one pass of the loop appends for a history record, if any. *)
Definition emit_item (tm tma : Z) (item : HistoryItem) : option MetricRow :=
  match item_metrics tm tma (ticker item) (normalize_index (data item)) with
  | inr (Some row) => Some row
  | _ => None
  end.

(** The row the engine emits for one history record, if any. *)
Definition emit (params : Params) (item : HistoryItem) : option MetricRow :=
  emit_item (momentum_window params) (ma_window params) item.

(** The rows the engine emits for a history, record by record. *)
Definition emitted_rows (params : Params) (history : list HistoryItem)
  : list MetricRow :=
  flat_map (fun item => match emit params item with
                        | Some row => [row]
                        | None => []
                        end) history.

(** A history record after the engine has rewritten its index. *)
Definition normalize_item (item : HistoryItem) : HistoryItem :=
  {| ticker := ticker item; data := normalize_index (data item) |}.

(** The trailing [n] observations of a series, in their order. *)
Definition trailing {A : Type} (n : Z) (xs : list A) : list A :=
  rev (firstn (Z.to_nat n) (rev xs)).

(** The arithmetic mean: the sum of the observations over their number. *)
Definition arithmetic_mean (xs : list float64) : float64 :=
  div (sum xs) (of_Z (len xs)).

(** The admission rule of the ranker. *)
Definition above (r : MetricRow) : bool :=
  gtb (current_price r) (moving_average r).

(** Every adjacent pair of rows satisfies [momentum[i] >= momentum[i+1]]. *)
Definition descending_by_momentum (l : list MetricRow) : Prop :=
  forall (i : nat) (a b : MetricRow),
    nth_error l i = Some a -> nth_error l (S i) = Some b ->
    geb (momentum a) (momentum b) = true.

(* ------------------------------------------------------------------ *)
(** ** Facts about the floating point model *)

Lemma compare_antisym (x y : float64) :
  compare y x = option_map CompOpp (compare x y).
Proof.
  destruct x, y; simpl; try reflexivity.
  now rewrite <- Qcompare_antisym.
Qed.

Lemma leb_total (x y : float64) :
  isnan x = false -> isnan y = false -> leb x y = false -> leb y x = true.
Proof.
  unfold leb. rewrite (compare_antisym x y).
  destruct x, y; simpl; try discriminate; try reflexivity.
  intros _ _. destruct (Qcompare q q0); simpl; congruence.
Qed.

Lemma eqb_not_gtb (x y : float64) : eqb x y = true -> gtb x y = false.
Proof.
  unfold eqb, gtb, ltb. rewrite (compare_antisym x y).
  destruct (compare x y) as [[ | | ]|]; simpl; congruence.
Qed.

Lemma add_NaN_l (y : float64) : add NaN y = NaN.
Proof. reflexivity. Qed.

Lemma add_NaN_r (x : float64) : add x NaN = NaN.
Proof. now destruct x. Qed.

Lemma fold_add_NaN (xs : list float64) : fold_left add xs NaN = NaN.
Proof. induction xs as [|x xs IH]; simpl; auto. Qed.

Lemma fold_add_has_NaN (xs : list float64) (acc : float64) :
  forallb notnan xs = false -> fold_left add xs acc = NaN.
Proof.
  revert acc. induction xs as [|x xs IH]; simpl; intros acc H.
  - discriminate.
  - destruct x; simpl in H; try (now apply IH).
    rewrite add_NaN_r. apply fold_add_NaN.
Qed.

Lemma div_NaN_l (y : float64) : div NaN y = NaN.
Proof. reflexivity. Qed.

(* ------------------------------------------------------------------ *)
(** ** Facts about positional access *)

Lemma Some_inj {A : Type} (a b : A) : Some a = Some b -> a = b.
Proof. congruence. Qed.

Lemma len_nonneg {A : Type} (s : list A) : 0 <= len s.
Proof. unfold len. lia. Qed.

Lemma len_map {A B : Type} (f : A -> B) (s : list A) : len (map f s) = len s.
Proof. unfold len. now rewrite length_map. Qed.

Lemma iloc_map {A B : Type} (f : A -> B) (s : list A) (i : Z) :
  iloc (map f s) i = match iloc s i with
                     | inr v => inr (f v)
                     | inl e => inl e
                     end.
Proof.
  unfold iloc. rewrite len_map.
  destruct ((_ <? 0) || _); [reflexivity|].
  rewrite nth_error_map. now destruct (nth_error s _).
Qed.

(** Inside the bounds [iloc] returns the element it designates. *)
Lemma iloc_nonneg {A : Type} (s : list A) (i : Z) :
  0 <= i < len s ->
  exists v, nth_error s (Z.to_nat i) = Some v /\ iloc s i = ok v.
Proof.
  intros H. unfold iloc.
  assert (E0 : (i <? 0) = false) by (apply Z.ltb_ge; lia).
  assert (E1 : (len s <=? i) = false) by (apply Z.leb_gt; lia).
  rewrite E0. cbv beta iota zeta. rewrite E0, E1.
  simpl. destruct (nth_error s (Z.to_nat i)) as [v|] eqn:E.
  - now exists v.
  - apply nth_error_None in E. unfold len in *. lia.
Qed.

Lemma iloc_neg {A : Type} (s : list A) (i : Z) :
  - len s <= i < 0 ->
  exists v, nth_error s (Z.to_nat (i + len s)) = Some v /\ iloc s i = ok v.
Proof.
  intros H. unfold iloc.
  assert (E0 : (i <? 0) = true) by (apply Z.ltb_lt; lia).
  assert (E1 : (i + len s <? 0) = false) by (apply Z.ltb_ge; lia).
  assert (E2 : (len s <=? i + len s) = false) by (apply Z.leb_gt; lia).
  rewrite E0. cbv beta iota zeta. rewrite E1, E2.
  simpl. destruct (nth_error s (Z.to_nat (i + len s))) as [v|] eqn:E.
  - now exists v.
  - apply nth_error_None in E. unfold len in *. lia.
Qed.

Lemma iloc_nil {A : Type} (i : Z) : iloc (@nil A) i = raise IndexError.
Proof.
  unfold iloc. change (len (@nil A)) with 0.
  destruct (i <? 0) eqn:E; cbv beta iota zeta.
  - assert (E1 : (i + 0 <? 0) = true) by (apply Z.ltb_lt; apply Z.ltb_lt in E; lia).
    now rewrite E1.
  - assert (E1 : (0 <=? i) = true) by (apply Z.leb_le; apply Z.ltb_ge in E; lia).
    now rewrite E1, orb_true_r.
Qed.

(** [tail n] of a series that is long enough: its last [n] entries. *)
Lemma tail_enough {A : Type} (n : Z) (s : list A) :
  0 < n -> n <= len s ->
  tail n s = skipn (Z.to_nat (len s - n)) s /\ len (tail n s) = n.
Proof.
  intros Hn Hle. unfold tail, slice_from, slice_bound.
  replace (n =? 0) with false by (symmetry; apply Z.eqb_neq; lia).
  replace (- n <? 0) with true by (symmetry; apply Z.ltb_lt; lia).
  replace (Z.max 0 (- n + len s)) with (len s - n) by lia.
  split; [reflexivity|].
  unfold len in *. rewrite length_skipn. lia.
Qed.

(** [tail n] of a series that is too short: the whole series. *)
Lemma tail_short {A : Type} (n : Z) (s : list A) :
  0 < n -> len s < n -> tail n s = s.
Proof.
  intros Hn Hlt. unfold tail, slice_from, slice_bound.
  replace (n =? 0) with false by (symmetry; apply Z.eqb_neq; lia).
  replace (- n <? 0) with true by (symmetry; apply Z.ltb_lt; lia).
  replace (Z.max 0 (- n + len s)) with 0 by lia.
  reflexivity.
Qed.

Lemma tail_is_trailing {A : Type} (n : Z) (s : list A) :
  0 < n -> n <= len s -> tail n s = trailing n s.
Proof.
  intros Hn Hle. destruct (tail_enough n s Hn Hle) as [-> _].
  unfold trailing. rewrite firstn_rev, rev_involutive.
  f_equal. unfold len. lia.
Qed.

Lemma trailing_length {A : Type} (n : Z) (xs : list A) :
  0 <= n <= len xs -> len (trailing n xs) = n.
Proof.
  intros H. unfold trailing, len in *.
  rewrite length_rev, length_firstn, length_rev. lia.
Qed.

Lemma iloc_tail_last {A : Type} (n : Z) (s : list A) :
  0 < n -> n <= len s -> iloc (tail n s) (-1) = iloc s (-1).
Proof.
  intros Hn Hle. destruct (tail_enough n s Hn Hle) as [Ht Hl].
  destruct (iloc_neg (tail n s) (-1)) as (v & Hv & ->); [lia|].
  destruct (iloc_neg s (-1)) as (v' & Hv' & ->); [lia|].
  rewrite Hl in Hv. rewrite Ht, nth_error_skipn in Hv.
  replace (Z.to_nat (len s - n) + Z.to_nat (-1 + n))%nat
    with (Z.to_nat (-1 + len s)) in Hv by lia.
  congruence.
Qed.

Lemma iloc_tail_first {A : Type} (n : Z) (s : list A) :
  0 < n -> n <= len s -> iloc (tail n s) 0 = iloc s (- n).
Proof.
  intros Hn Hle. destruct (tail_enough n s Hn Hle) as [Ht Hl].
  destruct (iloc_nonneg (tail n s) 0) as (v & Hv & ->); [lia|].
  destruct (iloc_neg s (- n)) as (v' & Hv' & ->); [lia|].
  rewrite Ht, nth_error_skipn in Hv.
  replace (Z.to_nat (len s - n) + Z.to_nat 0)%nat
    with (Z.to_nat (- n + len s)) in Hv by lia.
  congruence.
Qed.

Lemma tail_map {A B : Type} (f : A -> B) (n : Z) (s : list A) :
  tail n (map f s) = map f (tail n s).
Proof.
  unfold tail, slice_from, slice_bound. rewrite len_map.
  destruct (n =? 0); [reflexivity|]. apply skipn_map.
Qed.

(* ------------------------------------------------------------------ *)
(** ** Facts about the rolling mean *)

Lemma filter_shorter {A : Type} (f : A -> bool) (l : list A) :
  forallb f l = false -> (List.length (filter f l) < List.length l)%nat.
Proof.
  induction l as [|a l IH]; simpl; [discriminate|].
  destruct (f a); simpl; intros H.
  - apply IH in H. lia.
  - pose proof (filter_length_le f l). lia.
Qed.

(** A window that holds the whole, non-empty series: its mean is the
    arithmetic mean of the series, [NaN] as soon as one entry is. *)
Lemma calc_mean_whole (xs : list float64) :
  xs <> [] -> calc_mean (List.length xs) xs = arithmetic_mean xs.
Proof.
  intros Hne. unfold calc_mean, arithmetic_mean.
  destruct (forallb notnan xs) eqn:F.
  - rewrite (forallb_filter_id _ _ F), Nat.leb_refl.
    destruct xs; [congruence|]. reflexivity.
  - pose proof (filter_shorter _ _ F) as Hlt.
    apply Nat.leb_gt in Hlt. rewrite Hlt. simpl.
    unfold sum. now rewrite (fold_add_has_NaN _ _ F).
Qed.

Lemma window_at_whole (xs : list float64) :
  xs <> [] -> window_at (List.length xs) xs (List.length xs - 1) = xs.
Proof.
  intros Hne. unfold window_at.
  destruct xs as [|x xs]; [congruence|].
  cbn [List.length]. rewrite Nat.sub_succ, Nat.sub_0_r, Nat.sub_diag, Nat.sub_0_r.
  rewrite skipn_0. apply (firstn_all (x :: xs)).
Qed.

Lemma prep_values_length (xs : list float64) :
  List.length (prep_values xs) = List.length xs.
Proof. unfold prep_values. apply length_map. Qed.

Lemma rolling_mean_prepared (window : Z) (xs : list float64) :
  0 < window -> len xs = window ->
  exists rolled, (if window <? 0 then raise ValueError
                  else ok (map (fun i => calc_mean (Z.to_nat window)
                                           (window_at (Z.to_nat window) xs i))
                               (seq 0 (List.length xs)))) = ok rolled /\
                 iloc rolled (-1) = ok (arithmetic_mean xs).
Proof.
  intros Hw Hl.
  assert (E : (window <? 0) = false) by (apply Z.ltb_ge; lia).
  rewrite E. eexists; split; [reflexivity|].
  assert (Hn : Z.to_nat window = List.length xs) by (unfold len in Hl; lia).
  assert (Hne : xs <> []) by (intros ->; unfold len in Hl; simpl in Hl; lia).
  rewrite iloc_map.
  destruct (iloc_neg (seq 0 (List.length xs)) (-1)) as (v & Hv & ->).
  { unfold len. rewrite length_seq. unfold len in Hl. lia. }
  unfold len in Hv. rewrite length_seq, nth_error_seq in Hv.
  destruct (Nat.ltb_spec (Z.to_nat (-1 + Z.of_nat (List.length xs))) (List.length xs)) as [Hlt|Hge];
    [|discriminate].
  rewrite Nat.add_0_l in Hv.
  assert (Hv' : v = (List.length xs - 1)%nat) by (apply Some_inj in Hv; lia).
  unfold ok. cbv beta iota. rewrite Hv'.
  rewrite Hn, (window_at_whole _ Hne), (calc_mean_whole _ Hne). reflexivity.
Qed.

(** The last entry of the rolling mean over a series of exactly [window]
    observations is the arithmetic mean of the values the window is
    given: the series with its infinities read as [NaN]. *)
Lemma rolling_mean_last (window : Z) (xs : list float64) :
  0 < window -> len xs = window ->
  exists rolled, rolling_mean window xs = ok rolled /\
                 iloc rolled (-1) = ok (arithmetic_mean (prep_values xs)).
Proof.
  intros Hw Hl. unfold rolling_mean. cbv zeta.
  apply rolling_mean_prepared; [exact Hw|].
  unfold len in *. now rewrite prep_values_length.
Qed.

Lemma prep_values_no_inf (xs : list float64) :
  forallb (fun x => negb (isinf x)) xs = true -> prep_values xs = xs.
Proof.
  unfold prep_values. induction xs as [|x xs IH]; simpl; [reflexivity|].
  intros H. apply andb_true_iff in H. destruct H as [Hx Hxs].
  rewrite (IH Hxs). destruct x; simpl in *; congruence.
Qed.






(* ------------------------------------------------------------------ *)
(** ** Facts about the loop body *)

Lemma col_Close_normalize (df : DataFrame) :
  col_Close (normalize_index df) = col_Close df.
Proof.
  unfold col_Close, normalize_index. rewrite map_map. reflexivity.
Qed.

Lemma len_normalize (df : DataFrame) : len (normalize_index df) = len df.
Proof. unfold normalize_index. apply len_map. Qed.

Lemma normalize_index_idem (df : DataFrame) :
  normalize_index (normalize_index df) = normalize_index df.
Proof.
  unfold normalize_index. rewrite map_map. apply map_ext.
  intros b. reflexivity.
Qed.

(** Too few observations for the momentum window: [continue]. *)
Lemma item_metrics_short_momentum (tm tma : Z) (tk : string) (df : DataFrame) :
  0 < tm -> len df < tm -> item_metrics tm tma tk df = ok None.
Proof.
  intros Htm Hlt. unfold item_metrics.
  rewrite (tail_short tm df Htm Hlt).
  replace (len df <? tm) with true by (symmetry; apply Z.ltb_lt; lia).
  reflexivity.
Qed.

(** The loop body from [moving_average_df = ...] on, for a momentum
    already computed. *)
Definition average_stage (tma : Z) (tk : string) (df : DataFrame)
  (mom : float64) : result (option MetricRow) :=
  let moving_average_df := tail tma df in
  if len moving_average_df <? tma then ok None
  else
    rolled <- rolling_mean tma (col_Close moving_average_df) ;;
    ma <- iloc rolled (-1) ;;
    day <- iloc (index df) (-1) ;;
    price <- iloc (col_Close df) (-1) ;;
    ok (Some {| m_ticker := tk;
                current_day := strftime_Ymd day;
                current_price := price;
                momentum := mom;
                moving_average := ma |}).

(** Enough observations for the momentum window: the momentum is fixed
    and the second length test decides. *)
Lemma item_metrics_momentum_done (tm tma : Z) (tk : string) (df : DataFrame) :
  0 < tm -> tm <= len df ->
  exists last_close first_close,
    iloc (col_Close df) (-1) = ok last_close /\
    iloc (col_Close df) (- tm) = ok first_close /\
    item_metrics tm tma tk df =
      average_stage tma tk df (sub (div last_close first_close) one).
Proof.
  intros Htm Hle.
  assert (Hc : tm <= len (col_Close df)) by (unfold col_Close; now rewrite len_map).
  destruct (iloc_neg (col_Close df) (-1)) as (l & _ & Hl); [lia|].
  destruct (iloc_neg (col_Close df) (- tm)) as (f & _ & Hf); [lia|].
  exists l, f. split; [exact Hl|]. split; [exact Hf|].
  unfold item_metrics.
  destruct (tail_enough tm df Htm Hle) as [_ Hlen]. rewrite Hlen, Z.ltb_irrefl.
  unfold col_Close at 1 2. rewrite <- !tail_map. fold (col_Close df).
  rewrite (iloc_tail_last tm _ Htm Hc), (iloc_tail_first tm _ Htm Hc).
  unfold average_stage. rewrite Hl, Hf. reflexivity.
Qed.

(** Whatever the momentum window, a row comes out of the second stage. *)
Lemma item_metrics_some_stage (tm tma : Z) (tk : string) (df : DataFrame)
  (row : MetricRow) :
  item_metrics tm tma tk df = ok (Some row) ->
  exists mom, average_stage tma tk df mom = ok (Some row).
Proof.
  unfold item_metrics.
  destruct (len (tail tm df) <? tm); [discriminate|].
  destruct (iloc (col_Close (tail tm df)) (-1)) as [e|l]; [discriminate|].
  destruct (iloc (col_Close (tail tm df)) 0) as [e|f]; [discriminate|].
  simpl. intros H. eexists. exact H.
Qed.

Lemma average_stage_short (tma : Z) (tk : string) (df : DataFrame)
  (mom : float64) :
  0 < tma -> len df < tma -> average_stage tma tk df mom = ok None.
Proof.
  intros Htma Hlt. unfold average_stage.
  rewrite (tail_short tma df Htma Hlt).
  replace (len df <? tma) with true by (symmetry; apply Z.ltb_lt; lia).
  reflexivity.
Qed.

Lemma average_stage_enough (tma : Z) (tk : string) (df : DataFrame)
  (mom : float64) :
  0 < tma -> tma <= len df ->
  exists day price,
    iloc (index df) (-1) = ok day /\
    iloc (col_Close df) (-1) = ok price /\
    average_stage tma tk df mom =
      ok (Some {| m_ticker := tk;
                  current_day := strftime_Ymd day;
                  current_price := price;
                  momentum := mom;
                  moving_average :=
                    arithmetic_mean
                      (prep_values (trailing tma (col_Close df))) |}).
Proof.
  intros Htma Hle.
  assert (Hc : tma <= len (col_Close df)) by (unfold col_Close; now rewrite len_map).
  assert (Hi : tma <= len (index df)) by (unfold index; now rewrite len_map).
  destruct (iloc_neg (index df) (-1)) as (day & _ & Hday); [lia|].
  destruct (iloc_neg (col_Close df) (-1)) as (price & _ & Hprice); [lia|].
  exists day, price. split; [exact Hday|]. split; [exact Hprice|].
  unfold average_stage.
  destruct (tail_enough tma df Htma Hle) as [_ Hlen]. rewrite Hlen, Z.ltb_irrefl.
  unfold col_Close at 1. rewrite <- tail_map. fold (col_Close df).
  destruct (tail_enough tma (col_Close df) Htma Hc) as [_ Hlen'].
  destruct (rolling_mean_last tma _ Htma Hlen') as (rolled & -> & Hlast).
  simpl. rewrite Hlast. simpl. rewrite Hday. simpl. rewrite Hprice. simpl.
  now rewrite (tail_is_trailing tma _ Htma Hc).
Qed.

(** With both windows positive, a row is emitted exactly for the frames
    that are at least as long as the longer window. *)
Lemma item_metrics_some_iff (tm tma : Z) (tk : string) (df : DataFrame) :
  0 < tm -> 0 < tma ->
  (exists row, item_metrics tm tma tk df = ok (Some row)) <->
  Z.max tm tma <= len df.
Proof.
  intros Htm Htma. split.
  - intros [row H].
    destruct (Z_lt_le_dec (len df) tm) as [Hlt|Hle].
    { rewrite (item_metrics_short_momentum tm tma tk df Htm Hlt) in H. discriminate. }
    destruct (Z_lt_le_dec (len df) tma) as [Hlt'|Hle']; [|lia].
    destruct (item_metrics_momentum_done tm tma tk df Htm Hle) as (l & f & _ & _ & E).
    rewrite E, (average_stage_short tma tk df _ Htma Hlt') in H. discriminate.
  - intros Hmax.
    destruct (item_metrics_momentum_done tm tma tk df Htm) as (l & f & _ & _ & E); [lia|].
    destruct (average_stage_enough tma tk df (sub (div l f) one) Htma)
      as (day & price & _ & _ & E'); [lia|].
    eexists. rewrite E. exact E'.
Qed.

Lemma average_stage_fields (tma : Z) (tk : string) (df : DataFrame)
  (mom : float64) (row : MetricRow) :
  average_stage tma tk df mom = ok (Some row) ->
  m_ticker row = tk /\ momentum row = mom.
Proof.
  unfold average_stage.
  destruct (len (tail tma df) <? tma); [discriminate|].
  destruct (rolling_mean tma _) as [e|rolled]; [discriminate|]. simpl.
  destruct (iloc rolled (-1)) as [e|ma]; [discriminate|]. simpl.
  destruct (iloc (index df) (-1)) as [e|day]; [discriminate|]. simpl.
  destruct (iloc (col_Close df) (-1)) as [e|price]; [discriminate|]. simpl.
  unfold ok. intros [= <-]. split; reflexivity.
Qed.

(* ------------------------------------------------------------------ *)
(** ** Facts about the engine *)

Lemma process_items_spec (tm tma : Z) (history_data : list HistoryItem) :
  forall (metrics : list MetricRow) (log : list LogRecord),
    fst (fst (process_items tm tma history_data metrics log)) =
      map normalize_item history_data /\
    snd (fst (process_items tm tma history_data metrics log)) =
      metrics ++ flat_map (fun item => match emit_item tm tma item with
                                       | Some row => [row]
                                       | None => []
                                       end) history_data.
Proof.
  induction history_data as [|item rest IH]; intros metrics log.
  - simpl. now rewrite app_nil_r.
  - cbn [process_items flat_map map]. unfold emit_item at 1.
    destruct (item_metrics tm tma (ticker item) (normalize_index (data item)))
      as [e|[row|]].
    + specialize (IH metrics (log ++ [WarningProcess (ticker item) e])).
      destruct (process_items tm tma rest metrics _) as [[h' m'] l'].
      simpl in *. destruct IH as [-> ->]. split; reflexivity.
    + specialize (IH (metrics ++ [row]) log).
      destruct (process_items tm tma rest (metrics ++ [row]) log) as [[h' m'] l'].
      simpl in *. destruct IH as [-> ->]. split; [reflexivity|].
      now rewrite <- app_assoc.
    + specialize (IH metrics log).
      destruct (process_items tm tma rest metrics log) as [[h' m'] l'].
      simpl in *. destruct IH as [-> ->]. split; reflexivity.
Qed.

Lemma rows_pd_DataFrame (metrics : list MetricRow) :
  rows (pd_DataFrame metrics) = metrics.
Proof. now destruct metrics. Qed.

(** The outer [try] never sees an exception: the body always returns. *)
Lemma calculate_metrics_body_ok (history_data : list HistoryItem)
  (params : Params) :
  exists run, calculate_metrics_body history_data params = ok run /\
              df_metrics run = pd_DataFrame (emitted_rows params history_data) /\
              history_after run = map normalize_item history_data.
Proof.
  unfold calculate_metrics_body.
  pose proof (process_items_spec (21 * p_momentum params)
                (21 * p_moving_average params) history_data
                [] [InfoCalculating (len history_data)]) as [H1 H2].
  destruct (process_items _ _ history_data [] _) as [[h' m'] l'].
  simpl in H1, H2. subst h' m'.
  eexists. split; [reflexivity|]. split; reflexivity.
Qed.

Lemma calculate_metrics_frame (history_data : list HistoryItem)
  (params : Params) :
  df_metrics (calculate_metrics history_data params) =
    pd_DataFrame (emitted_rows params history_data).
Proof.
  unfold calculate_metrics.
  destruct (calculate_metrics_body_ok history_data params) as (run & -> & H & _).
  exact H.
Qed.

Lemma calculate_metrics_rows (history_data : list HistoryItem)
  (params : Params) :
  rows (df_metrics (calculate_metrics history_data params)) =
    emitted_rows params history_data.
Proof. now rewrite calculate_metrics_frame, rows_pd_DataFrame. Qed.

Lemma calculate_metrics_history (history_data : list HistoryItem)
  (params : Params) :
  history_after (calculate_metrics history_data params) =
    map normalize_item history_data.
Proof.
  unfold calculate_metrics.
  destruct (calculate_metrics_body_ok history_data params) as (run & -> & _ & H).
  exact H.
Qed.

Lemma emitted_rows_in (params : Params) (history : list HistoryItem)
  (row : MetricRow) :
  In row (emitted_rows params history) <->
  exists item, In item history /\ emit params item = Some row.
Proof.
  unfold emitted_rows. rewrite in_flat_map. split.
  - intros (item & Hin & Hrow). exists item. split; [exact Hin|].
    destruct (emit params item) as [r|]; simpl in Hrow; [|contradiction].
    destruct Hrow as [->|[]]. reflexivity.
  - intros (item & Hin & E). exists item. split; [exact Hin|].
    rewrite E. now left.
Qed.

Lemma emitted_rows_length (params : Params) (history : list HistoryItem) :
  (List.length (emitted_rows params history) <= List.length history)%nat.
Proof.
  unfold emitted_rows. induction history as [|item rest IH]; simpl; [lia|].
  rewrite length_app. destruct (emit params item); simpl; lia.
Qed.

Lemma emit_ticker (params : Params) (item : HistoryItem) (row : MetricRow) :
  emit params item = Some row -> m_ticker row = ticker item.
Proof.
  unfold emit, emit_item.
  destruct (item_metrics _ _ _ _) as [e|[r|]] eqn:E; try discriminate.
  intros H. apply Some_inj in H. subst r.
  destruct (item_metrics_some_stage _ _ _ _ _ E) as (mom & Hs).
  now destruct (average_stage_fields _ _ _ _ _ Hs).
Qed.

(** With both periods positive, a record yields a row exactly when it has
    at least as many observations as the longer window. *)
Lemma emit_some_iff (params : Params) (item : HistoryItem) :
  0 < p_momentum params -> 0 < p_moving_average params ->
  (exists row, emit params item = Some row) <->
  Z.max (momentum_window params) (ma_window params) <= len (data item).
Proof.
  intros Hm Ha. rewrite <- (len_normalize (data item)).
  rewrite <- (item_metrics_some_iff (momentum_window params) (ma_window params)
                (ticker item) (normalize_index (data item)));
    [|unfold momentum_window; lia|unfold ma_window; lia].
  unfold emit, emit_item.
  destruct (item_metrics _ _ _ _) as [e|[r|]]; split; intros [row H];
    try discriminate; eauto.
Qed.

(* ------------------------------------------------------------------ *)
(** ** Facts about the ranking block *)

Lemma select_mask_filter (rs : list MetricRow) :
  select_mask (series_gt (map current_price rs) (map moving_average rs)) rs =
    filter above rs.
Proof.
  induction rs as [|r rs IH]; simpl; [reflexivity|].
  unfold above at 1. now rewrite IH.
Qed.

Lemma insert_asc_perm (r : MetricRow) (l : list MetricRow) :
  Permutation (insert_asc r l) (r :: l).
Proof.
  induction l as [|x l IH]; simpl; [apply Permutation_refl|].
  destruct (leb (momentum r) (momentum x)); [apply Permutation_refl|].
  eapply perm_trans; [apply perm_skip, IH | apply perm_swap].
Qed.

Lemma argsort_asc_perm (l : list MetricRow) : Permutation (argsort_asc l) l.
Proof.
  induction l as [|r l IH]; simpl; [apply perm_nil|].
  eapply perm_trans; [apply insert_asc_perm | apply perm_skip, IH].
Qed.

Lemma filter_split_perm (l : list MetricRow) :
  Permutation (filter momentum_notnan l ++ filter momentum_isnan l) l.
Proof.
  induction l as [|r l IH]; simpl; [apply perm_nil|].
  unfold momentum_notnan at 1, momentum_isnan at 1, notnan.
  destruct (isnan (momentum r)); simpl.
  - apply Permutation_sym, Permutation_cons_app, Permutation_sym, IH.
  - apply perm_skip, IH.
Qed.

(** Sorting moves rows, it neither makes nor changes any. *)
Lemma nargsort_desc_perm (l : list MetricRow) :
  Permutation (nargsort_desc l) l.
Proof.
  unfold nargsort_desc.
  eapply perm_trans; [|apply filter_split_perm].
  apply Permutation_app_tail.
  eapply perm_trans; [apply Permutation_sym, Permutation_rev|].
  eapply perm_trans; [apply argsort_asc_perm|].
  apply Permutation_sym, Permutation_rev.
Qed.

Lemma nargsort_desc_length (l : list MetricRow) :
  List.length (nargsort_desc l) = List.length l.
Proof. apply Permutation_length, nargsort_desc_perm. Qed.

Lemma head_nil {A : Type} (n : Z) : head n (@nil A) = [].
Proof. unfold head, slice_to. apply firstn_nil. Qed.

Lemma head_is_firstn {A : Type} (n : Z) (l : list A) :
  head n l = firstn (slice_bound l n) l.
Proof. reflexivity. Qed.

Lemma head_length {A : Type} (n : Z) (l : list A) :
  0 <= n -> len (head n l) = Z.min n (len l).
Proof.
  intros Hn. unfold head, slice_to, slice_bound, len.
  replace (n <? 0) with false by (symmetry; apply Z.ltb_ge; lia).
  rewrite length_firstn. unfold len. lia.
Qed.

(** The ranking block on the frame of any list of rows: which branch it
    takes and what it computes there. *)
Lemma rank_block_spec (metrics : list MetricRow) (wallet_size : Z) :
  rank_block (pd_DataFrame metrics) wallet_size =
    ok match metrics with
       | [] => MetricsError
       | _ :: _ =>
           match filter above metrics with
           | [] => NoAssetPassed
           | _ :: _ =>
               TopAssets
                 {| columns := metric_columns; rows := filter above metrics |}
                 {| columns := metric_columns;
                    rows := head wallet_size
                              (nargsort_desc (filter above metrics)) |}
           end
       end.
Proof.
  destruct metrics as [|r rs]; [reflexivity|].
  unfold rank_block. cbn [pd_DataFrame empty columns rows metric_columns negb].
  unfold getattr_column. cbn [columns rows].
  change (has_column _ "current_price") with true.
  change (has_column _ "moving_average") with true.
  cbv beta iota. unfold bind at 1 2, ok at 1 2. cbv beta iota.
  unfold getitem_mask. cbn [columns rows].
  rewrite (select_mask_filter (r :: rs)).
  unfold sort_values_momentum_desc. cbn [columns rows].
  change (has_column _ "momentum") with true.
  cbv beta iota. unfold bind at 1, ok at 1. cbv beta iota.
  unfold empty. cbn [columns rows].
  pose proof (nargsort_desc_length (filter above (r :: rs))) as Hlen.
  destruct (filter above (r :: rs)) as [|f fs];
    destruct (nargsort_desc _) as [|x xs]; simpl in Hlen; try discriminate;
    reflexivity.
Qed.

Lemma rank_block_portfolio (metrics : list MetricRow) (wallet_size : Z)
  (o : Outcome) :
  rank_block (pd_DataFrame metrics) wallet_size = ok o ->
  RankedPortfolio o = head wallet_size (nargsort_desc (filter above metrics)) /\
  above_average o = filter above metrics.
Proof.
  rewrite rank_block_spec. unfold ok. intros [= <-].
  destruct metrics as [|r rs].
  { split; [symmetry; exact (head_nil wallet_size) | reflexivity]. }
  destruct (filter above (r :: rs)) as [|f fs].
  { split; [symmetry; exact (head_nil wallet_size) | reflexivity]. }
  split; reflexivity.
Qed.

(** The rows of the portfolio, with what the sort left of the others,
    are the rows that passed the filter. *)
Lemma portfolio_perm (rs : list MetricRow) (wallet_size : Z) :
  exists rest,
    Permutation (head wallet_size (nargsort_desc rs) ++ rest) rs.
Proof.
  exists (skipn (slice_bound (nargsort_desc rs) wallet_size) (nargsort_desc rs)).
  rewrite head_is_firstn, firstn_skipn. apply nargsort_desc_perm.
Qed.

(* ------------------------------------------------------------------ *)
(** ** Locally sorted lists *)

Section LocallySorted.

Context {A : Type}.
Variable R : A -> A -> Prop.

Lemma Sorted_snoc (m : list A) (x : A) :
  Sorted R m ->
  (forall m' y, m = m' ++ [y] -> R y x) ->
  Sorted R (m ++ [x]).
Proof.
  induction m as [|a m IH]; intros Hs Hlast; simpl.
  - repeat constructor.
  - apply Sorted_inv in Hs. destruct Hs as [Hs Hhd]. constructor.
    + apply IH; [exact Hs|]. intros m' y ->. apply (Hlast (a :: m') y). reflexivity.
    + destruct m as [|b m]; simpl.
      * constructor. apply (Hlast [] a). reflexivity.
      * constructor. now apply HdRel_inv in Hhd.
Qed.

Lemma Sorted_all_right (l : list A) :
  (forall b, In b l -> forall a, R a b) -> Sorted R l.
Proof.
  induction l as [|x l IH]; intros H; constructor.
  - apply IH. intros b Hb. apply H. now right.
  - destruct l as [|y l]; constructor. apply H. right. now left.
Qed.

Lemma Sorted_app_all_right (l1 l2 : list A) :
  Sorted R l1 ->
  (forall b, In b l2 -> forall a, R a b) ->
  Sorted R (l1 ++ l2).
Proof.
  intros Hs H. induction Hs as [|x l Hs IH Hhd]; simpl.
  - now apply Sorted_all_right.
  - constructor; [exact IH|].
    destruct l as [|y l]; simpl.
    + destruct l2 as [|b l2]; constructor. apply H. now left.
    + constructor. now apply HdRel_inv in Hhd.
Qed.

Lemma Sorted_firstn (n : nat) (l : list A) :
  Sorted R l -> Sorted R (firstn n l).
Proof.
  revert l. induction n as [|n IH]; intros l Hs; simpl; [constructor|].
  destruct l as [|x l]; [constructor|].
  apply Sorted_inv in Hs. destruct Hs as [Hs Hhd].
  constructor; [now apply IH|].
  destruct n, l; simpl; constructor. now apply HdRel_inv in Hhd.
Qed.

Lemma Sorted_adjacent (l : list A) :
  Sorted R l ->
  forall i a b, nth_error l i = Some a -> nth_error l (S i) = Some b -> R a b.
Proof.
  induction 1 as [|x l Hs IH Hhd]; intros i a b Ha Hb.
  - destruct i; discriminate.
  - destruct i as [|i].
    + simpl in Ha. apply Some_inj in Ha. subst x.
      destruct l as [|y l]; [discriminate|].
      simpl in Hb. apply Some_inj in Hb. subst y.
      now apply HdRel_inv in Hhd.
    + simpl in Ha. apply (IH i a b Ha Hb).
Qed.

End LocallySorted.

Lemma Sorted_rev {A : Type} (R : A -> A -> Prop) (l : list A) :
  Sorted R l -> Sorted (fun a b => R b a) (rev l).
Proof.
  induction 1 as [|x l Hs IH Hhd]; simpl; [constructor|].
  apply Sorted_snoc; [exact IH|].
  intros m' y E. apply (f_equal (@rev A)) in E.
  rewrite rev_involutive, rev_app_distr in E. simpl in E. subst l.
  now apply HdRel_inv in Hhd.
Qed.

Lemma Sorted_weaken {A : Type} (R Q : A -> A -> Prop) (l : list A) :
  (forall a b, R a b -> Q a b) -> Sorted R l -> Sorted Q l.
Proof.
  intros H. induction 1 as [|x l Hs IH Hhd]; constructor; [exact IH|].
  destruct Hhd; constructor. now apply H.
Qed.

(* ------------------------------------------------------------------ *)
(** ** The order of the sorted frame *)

(** Ascending on momentum. *)
Definition ascending (a b : MetricRow) : Prop :=
  leb (momentum a) (momentum b) = true.

(** What pandas guarantees for two neighbours of a frame sorted
    descending with the [NaN] keys last. *)
Definition descending_or_nan (a b : MetricRow) : Prop :=
  isnan (momentum b) = true \/ geb (momentum a) (momentum b) = true.

Lemma insert_asc_sorted (r : MetricRow) (l : list MetricRow) :
  momentum_notnan r = true ->
  Forall (fun x => momentum_notnan x = true) l ->
  Sorted ascending l -> Sorted ascending (insert_asc r l).
Proof.
  intros Hr Hl Hs. induction Hs as [|x l Hs IH Hhd]; simpl.
  - repeat constructor.
  - apply Forall_cons_iff in Hl. destruct Hl as [Hx Hl].
    destruct (leb (momentum r) (momentum x)) eqn:E.
    + constructor; [now constructor|]. constructor. exact E.
    + constructor; [now apply IH|].
      assert (Hxr : ascending x r).
      { unfold ascending. unfold momentum_notnan, notnan in Hr, Hx.
        apply leb_total; [ | |exact E].
        - now destruct (isnan (momentum r)).
        - now destruct (isnan (momentum x)). }
      destruct l as [|y l]; simpl.
      * now constructor.
      * destruct (leb (momentum r) (momentum y)); constructor;
          [exact Hxr | now apply HdRel_inv in Hhd].
Qed.

Lemma argsort_asc_sorted (l : list MetricRow) :
  Forall (fun x => momentum_notnan x = true) l ->
  Sorted ascending (argsort_asc l).
Proof.
  induction l as [|r l IH]; intros H; simpl; [constructor|].
  apply Forall_cons_iff in H. destruct H as [Hr Hl].
  apply insert_asc_sorted; [exact Hr| |now apply IH].
  apply Forall_forall. intros x Hx.
  apply (Permutation_in _ (argsort_asc_perm l)) in Hx.
  revert x Hx. now apply Forall_forall.
Qed.

(** The sorted frame: descending on momentum, the [NaN] keys at the end. *)
Lemma nargsort_desc_sorted (l : list MetricRow) :
  Sorted descending_or_nan (nargsort_desc l).
Proof.
  unfold nargsort_desc. apply Sorted_app_all_right.
  - apply Sorted_weaken with (R := fun a b => ascending b a).
    + intros a b H. right. exact H.
    + apply Sorted_rev, argsort_asc_sorted.
      apply Forall_forall. intros x Hx.
      apply in_rev, filter_In in Hx. tauto.
  - intros b Hb a. left. apply filter_In in Hb. tauto.
Qed.

(** Without a [NaN] key the sorted frame is plainly descending. *)
Lemma nargsort_desc_sorted_notnan (l : list MetricRow) :
  Forall (fun x => momentum_notnan x = true) l ->
  Sorted (fun a b => geb (momentum a) (momentum b) = true) (nargsort_desc l).
Proof.
  intros H. unfold nargsort_desc.
  replace (filter momentum_isnan l) with (@nil MetricRow).
  - rewrite app_nil_r.
    apply (Sorted_rev ascending), argsort_asc_sorted.
    apply Forall_forall. intros x Hx.
    apply in_rev, filter_In in Hx. tauto.
  - symmetry. induction H as [|x l Hx Hl IH]; simpl; [reflexivity|].
    unfold momentum_isnan at 1. unfold momentum_notnan, notnan in Hx.
    destruct (isnan (momentum x)); [discriminate|exact IH].
Qed.

Lemma filter_partition_perm {A : Type} (f : A -> bool) (l : list A) :
  Permutation (filter f l ++ filter (fun x => negb (f x)) l) l.
Proof.
  induction l as [|x l IH]; simpl; [apply perm_nil|].
  destruct (f x); simpl.
  - apply perm_skip, IH.
  - apply Permutation_sym, Permutation_cons_app, Permutation_sym, IH.
Qed.

Lemma NoDup_map_inj {A B : Type} (f : A -> B) (l : list A) (a b : A) :
  NoDup (map f l) -> In a l -> In b l -> f a = f b -> a = b.
Proof.
  induction l as [|x l IH]; simpl; intros Hnd Ha Hb E; [contradiction|].
  apply NoDup_cons_iff in Hnd. destruct Hnd as [Hx Hnd].
  destruct Ha as [->|Ha], Hb as [->|Hb].
  - reflexivity.
  - exfalso. apply Hx. rewrite E. now apply in_map.
  - exfalso. apply Hx. rewrite <- E. now apply in_map.
  - now apply IH.
Qed.

Lemma emit_none_short (params : Params) (item : HistoryItem) :
  0 < p_momentum params ->
  len (data item) < momentum_window params ->
  emit params item = None.
Proof.
  intros Hm Hlt. unfold emit, emit_item.
  rewrite item_metrics_short_momentum; [reflexivity| |].
  - unfold momentum_window. lia.
  - now rewrite len_normalize.
Qed.

Lemma emit_normalize_item (params : Params) (item : HistoryItem) :
  emit params (normalize_item item) = emit params item.
Proof.
  unfold emit, emit_item, normalize_item. simpl.
  now rewrite normalize_index_idem.
Qed.

Lemma emitted_rows_normalized (params : Params) (history : list HistoryItem) :
  emitted_rows params (map normalize_item history) = emitted_rows params history.
Proof.
  unfold emitted_rows. induction history as [|item rest IH]; simpl; [reflexivity|].
  now rewrite emit_normalize_item, IH.
Qed.

Lemma portfolio_in_filter (metrics : list MetricRow) (wallet_size : Z)
  (o : Outcome) (r : MetricRow) :
  rank_block (pd_DataFrame metrics) wallet_size = ok o ->
  In r (RankedPortfolio o) -> In r metrics /\ above r = true.
Proof.
  intros Ho Hin. destruct (rank_block_portfolio _ _ _ Ho) as [Hp _].
  rewrite Hp in Hin.
  destruct (portfolio_perm (filter above metrics) wallet_size) as [rest Hperm].
  apply filter_In. apply (Permutation_in _ Hperm). apply in_or_app. now left.
Qed.

(** The ranking block raises on no frame the engine can build. *)
Lemma rank_block_total (metrics : list MetricRow) (wallet_size : Z) :
  exists o, rank_block (pd_DataFrame metrics) wallet_size = ok o.
Proof. rewrite rank_block_spec. eexists. reflexivity. Qed.

Lemma pipeline_unfold (history : list HistoryItem) (params : Params)
  (wallet_size : Z) :
  pipeline history params wallet_size =
    rank_block (pd_DataFrame (emitted_rows params history)) wallet_size.
Proof. unfold pipeline. now rewrite calculate_metrics_frame. Qed.

(* ------------------------------------------------------------------ *)
(** ** Fixtures *)

Definition utc_day (d : Z) : Timestamp :=
  {| wall := d * ns_per_day; utcoffset := Some 0 |}.

(** [n] daily bars from 2022-01-08 on, closing at 100, 101, 102, ... *)
Definition rising (n : nat) : DataFrame :=
  map (fun i => {| date := utc_day (19000 + Z.of_nat i);
                   Close := of_Z (100 + Z.of_nat i) |}) (seq 0 n).

Definition month_item : HistoryItem := {| ticker := "AAA"; data := rising 21 |}.
Definition short_item : HistoryItem := {| ticker := "BBB"; data := rising 20 |}.
Definition long_item : HistoryItem := {| ticker := "CCC"; data := rising 63 |}.

Definition one_month : Params := {| p_momentum := 1; p_moving_average := 1 |}.
Definition one_and_three : Params := {| p_momentum := 1; p_moving_average := 3 |}.
Definition three_and_one : Params := {| p_momentum := 3; p_moving_average := 1 |}.

Definition row (tk : string) (price mom avg : float64) : MetricRow :=
  {| m_ticker := tk; current_day := "2024-01-02";
     current_price := price; momentum := mom; moving_average := avg |}.

(** The three rows of the end-to-end scenario of the specification. *)
Definition scenario : list MetricRow :=
  [ row "A" (of_Z 11) (Fin (10 # 100)) (of_Z 10);
    row "B" (of_Z 9) (Fin (5 # 100)) (of_Z 10);
    row "C" (of_Z 12) (Fin (20 # 100)) (of_Z 10) ].

Example scenario_ranked :
  rank_block (pd_DataFrame scenario) 2 =
    ok (TopAssets
          {| columns := metric_columns;
             rows := [ row "A" (of_Z 11) (Fin (10 # 100)) (of_Z 10);
                       row "C" (of_Z 12) (Fin (20 # 100)) (of_Z 10) ] |}
          {| columns := metric_columns;
             rows := [ row "C" (of_Z 12) (Fin (20 # 100)) (of_Z 10);
                       row "A" (of_Z 11) (Fin (10 # 100)) (of_Z 10) ] |}).
Proof. reflexivity. Qed.

Example month_item_row :
  emit one_month month_item =
    Some {| m_ticker := "AAA"; current_day := "2022-01-28";
            current_price := Fin (120 # 1);
            momentum := Fin (20 # 100);
            moving_average := Fin (2310 # 21) |}.
Proof. reflexivity. Qed.

(* ------------------------------------------------------------------ *)
(** ** The claims of the specification *)









(** C3. With both periods of at least one month: the rows of the metrics
    frame are the rows emitted record by record; a record yields a row if
    and only if it has at least [max(momentum_window, ma_window)]
    observations; a record of the history with fewer observations yields no
    row and, tickers being unique in a run, its ticker appears neither in
    the metrics frame nor in the ranked portfolio; and neither the metrics
    frame nor the portfolio has more rows than the history has records. *)
Theorem row_iff_enough_history
  (history : list HistoryItem) (params : Params) (wallet_size : Z)
  (o : Outcome) :
  0 < p_momentum params ->
  0 < p_moving_average params ->
  pipeline history params wallet_size = ok o ->
  rows (df_metrics (calculate_metrics history params)) =
    emitted_rows params history /\
  (forall item,
     (exists r, emit params item = Some r) <->
     Z.max (momentum_window params) (ma_window params) <= len (data item)) /\
  (forall item,
     In item history ->
     len (data item) < Z.max (momentum_window params) (ma_window params) ->
     emit params item = None /\
     (NoDup (map ticker history) ->
      ~ In (ticker item)
           (map m_ticker (rows (df_metrics (calculate_metrics history params)))) /\
      ~ In (ticker item) (map m_ticker (RankedPortfolio o)))) /\
  len (rows (df_metrics (calculate_metrics history params))) <= len history /\
  len (RankedPortfolio o) <= len history.
Proof.
  intros Hm Ha Ho.
  rewrite pipeline_unfold in Ho.
  rewrite calculate_metrics_rows.
  assert (Hnone : forall item,
             len (data item) < Z.max (momentum_window params) (ma_window params) ->
             emit params item = None).
  { intros item Hlt. destruct (emit params item) as [r|] eqn:E; [|reflexivity].
    assert (Hex : exists r, emit params item = Some r) by now exists r.
    apply (emit_some_iff params item Hm Ha) in Hex. lia. }
  assert (Hticker : forall item,
             In item history -> NoDup (map ticker history) ->
             emit params item = None ->
             ~ In (ticker item) (map m_ticker (emitted_rows params history))).
  { intros item Hin Hnd Hno Hmem.
    apply in_map_iff in Hmem. destruct Hmem as (r & Htk & Hr).
    apply emitted_rows_in in Hr. destruct Hr as (item' & Hin' & E).
    assert (item' = item).
    { apply (NoDup_map_inj ticker history); auto.
      rewrite <- Htk. symmetry. now apply emit_ticker with (params := params). }
    subst item'. congruence. }
  destruct (rank_block_portfolio _ _ _ Ho) as [Hp _].
  destruct (portfolio_perm (filter above (emitted_rows params history)) wallet_size)
    as [rest Hperm].
  rewrite <- Hp in Hperm.
  split; [reflexivity|]. split; [intros item; now apply emit_some_iff|].
  split; [|split].
  - intros item Hin Hlt. split; [now apply Hnone|].
    intros Hnd. split; [apply Hticker; auto|].
    intros Hmem. apply (Hticker item Hin Hnd (Hnone item Hlt)).
    apply in_map_iff in Hmem. destruct Hmem as (r & Htk & Hr).
    apply in_map_iff. exists r. split; [exact Htk|].
    apply (portfolio_in_filter _ _ _ r Ho Hr).
  - pose proof (emitted_rows_length params history). unfold len. lia.
  - pose proof (emitted_rows_length params history) as H1.
    pose proof (filter_length_le above (emitted_rows params history)) as H2.
    apply Permutation_length in Hperm. rewrite length_app in Hperm.
    unfold len. lia.
Qed.

(** The outcome of the pipeline on the two-record fixture. *)
Definition fixture_outcome : Outcome :=
  TopAssets
    {| columns := metric_columns;
       rows := [ {| m_ticker := "AAA"; current_day := "2022-01-28";
                    current_price := Fin (120 # 1);
                    momentum := Fin (20 # 100);
                    moving_average := Fin (2310 # 21) |} ] |}
    {| columns := metric_columns;
       rows := [ {| m_ticker := "AAA"; current_day := "2022-01-28";
                    current_price := Fin (120 # 1);
                    momentum := Fin (20 # 100);
                    moving_average := Fin (2310 # 21) |} ] |}.

Lemma row_iff_enough_history_witness :
  rows (df_metrics (calculate_metrics [short_item; month_item] one_month)) =
    emitted_rows one_month [short_item; month_item] /\
  (forall item,
     (exists r, emit one_month item = Some r) <->
     Z.max (momentum_window one_month) (ma_window one_month) <= len (data item)) /\
  (forall item,
     In item [short_item; month_item] ->
     len (data item) < Z.max (momentum_window one_month) (ma_window one_month) ->
     emit one_month item = None /\
     (NoDup (map ticker [short_item; month_item]) ->
      ~ In (ticker item)
           (map m_ticker
              (rows (df_metrics
                       (calculate_metrics [short_item; month_item] one_month)))) /\
      ~ In (ticker item) (map m_ticker (RankedPortfolio fixture_outcome)))) /\
  len (rows (df_metrics (calculate_metrics [short_item; month_item] one_month)))
    <= len [short_item; month_item] /\
  len (RankedPortfolio fixture_outcome) <= len [short_item; month_item].
Proof.
  apply (row_iff_enough_history [short_item; month_item] one_month 5 fixture_outcome).
  - reflexivity.
  - reflexivity.
  - vm_compute. reflexivity.
Defined.

(** C4. The admission filter is the strict inequality: the rows reported
    as above their average are exactly the rows of the metrics frame with
    [current_price > moving_average]; every row of the ranked portfolio
    satisfies it; and a row whose current price equals its moving average
    is neither among the admitted rows nor in the ranked portfolio. *)
Theorem filter_is_strict
  (metrics : list MetricRow) (wallet_size : Z) (o : Outcome) :
  rank_block (pd_DataFrame metrics) wallet_size = ok o ->
  (forall r, In r (above_average o) <->
             In r metrics /\
             gtb (current_price r) (moving_average r) = true) /\
  (forall r, In r (RankedPortfolio o) ->
             gtb (current_price r) (moving_average r) = true) /\
  (forall r, eqb (current_price r) (moving_average r) = true ->
             ~ In r (above_average o) /\ ~ In r (RankedPortfolio o)).
Proof.
  intros Ho. destruct (rank_block_portfolio _ _ _ Ho) as [_ Ha].
  assert (H1 : forall r, In r (above_average o) <->
                         In r metrics /\
                         gtb (current_price r) (moving_average r) = true).
  { intros r. rewrite Ha. apply filter_In. }
  assert (H2 : forall r, In r (RankedPortfolio o) ->
                         gtb (current_price r) (moving_average r) = true).
  { intros r Hr. apply (portfolio_in_filter _ _ _ r Ho Hr). }
  split; [exact H1|]. split; [exact H2|].
  intros r Heq. apply eqb_not_gtb in Heq. split.
  - intros Hin. apply H1 in Hin. destruct Hin as [_ Hgt]. congruence.
  - intros Hin. apply H2 in Hin. congruence.
Qed.

(** The outcome of the ranking block on the scenario rows. *)
Definition scenario_outcome : Outcome :=
  TopAssets
    {| columns := metric_columns;
       rows := [ row "A" (of_Z 11) (Fin (10 # 100)) (of_Z 10);
                 row "C" (of_Z 12) (Fin (20 # 100)) (of_Z 10) ] |}
    {| columns := metric_columns;
       rows := [ row "C" (of_Z 12) (Fin (20 # 100)) (of_Z 10);
                 row "A" (of_Z 11) (Fin (10 # 100)) (of_Z 10) ] |}.

Lemma filter_is_strict_witness :
  (forall r, In r (above_average scenario_outcome) <->
             In r scenario /\
             gtb (current_price r) (moving_average r) = true) /\
  (forall r, In r (RankedPortfolio scenario_outcome) ->
             gtb (current_price r) (moving_average r) = true) /\
  (forall r, eqb (current_price r) (moving_average r) = true ->
             ~ In r (above_average scenario_outcome) /\
             ~ In r (RankedPortfolio scenario_outcome)).
Proof.
  apply (filter_is_strict scenario 2 scenario_outcome).
  reflexivity.
Defined.

(** A row at its own moving average, next to one above it: only the
    second is ranked. *)
Example price_at_average_excluded :
  rank_block
    (pd_DataFrame [ row "A" (of_Z 10) (Fin (10 # 100)) (of_Z 10);
                    row "C" (of_Z 12) (Fin (20 # 100)) (of_Z 10) ]) 5 =
    ok (TopAssets
          {| columns := metric_columns;
             rows := [ row "C" (of_Z 12) (Fin (20 # 100)) (of_Z 10) ] |}
          {| columns := metric_columns;
             rows := [ row "C" (of_Z 12) (Fin (20 # 100)) (of_Z 10) ] |}).
Proof. reflexivity. Qed.

(** Two admitted rows, the second with a [NaN] momentum. *)
Definition nan_rows : list MetricRow :=
  [ row "A" (of_Z 11) (Fin (10 # 100)) (of_Z 10);
    row "N" (of_Z 12) NaN (of_Z 10) ].

(** C5, as stated, fails: the ranked portfolio of two admitted rows of
    which one has a [NaN] momentum ends with that row, and
    [0.10 >= NaN] does not hold. *)
Lemma nan_momentum_not_descending :
  exists o, rank_block (pd_DataFrame nan_rows) 5 = ok o /\
            RankedPortfolio o = nan_rows /\
            ~ descending_by_momentum (RankedPortfolio o).
Proof.
  eexists. split; [reflexivity|]. split; [reflexivity|].
  intros H.
  specialize (H 0%nat (row "A" (of_Z 11) (Fin (10 # 100)) (of_Z 10))
                (row "N" (of_Z 12) NaN (of_Z 10)) eq_refl eq_refl).
  discriminate H.
Qed.

(** A [NaN] momentum that passes the filter comes out of the engine for a
    record whose close at the start of the momentum window is missing. *)
Definition holed_item : HistoryItem :=
  {| ticker := "N";
     data := {| date := utc_day 18999; Close := NaN |} :: rising 62 |}.

Example holed_item_row :
  exists r, emit three_and_one holed_item = Some r /\
            momentum r = NaN /\ above r = true.
Proof. eexists. split; [vm_compute; reflexivity|]. split; reflexivity. Qed.

(** C5, amended. The ranked portfolio is sorted by momentum in descending
    order with the rows whose momentum is [NaN] at its end: of two adjacent
    rows either the second has a [NaN] momentum or
    [momentum[i] >= momentum[i+1]]; and when no admitted row has a [NaN]
    momentum, [momentum[i] >= momentum[i+1]] holds for all adjacent
    pairs. *)
Theorem ranked_descending_nan_last
  (metrics : list MetricRow) (wallet_size : Z) (o : Outcome) :
  rank_block (pd_DataFrame metrics) wallet_size = ok o ->
  (forall (i : nat) (a b : MetricRow),
     nth_error (RankedPortfolio o) i = Some a ->
     nth_error (RankedPortfolio o) (S i) = Some b ->
     isnan (momentum b) = true \/ geb (momentum a) (momentum b) = true) /\
  ((forall r, In r metrics -> above r = true -> isnan (momentum r) = false) ->
   descending_by_momentum (RankedPortfolio o)).
Proof.
  intros Ho. destruct (rank_block_portfolio _ _ _ Ho) as [Hp _].
  rewrite Hp, head_is_firstn. split.
  - apply (Sorted_adjacent descending_or_nan).
    apply Sorted_firstn, nargsort_desc_sorted.
  - intros Hnn. unfold descending_by_momentum.
    apply (Sorted_adjacent (fun a b => geb (momentum a) (momentum b) = true)).
    apply Sorted_firstn, nargsort_desc_sorted_notnan.
    apply Forall_forall. intros x Hx. apply filter_In in Hx.
    destruct Hx as [Hin Hab]. unfold momentum_notnan, notnan.
    now rewrite (Hnn x Hin Hab).
Qed.

Lemma ranked_descending_nan_last_witness :
  (forall (i : nat) (a b : MetricRow),
     nth_error (RankedPortfolio scenario_outcome) i = Some a ->
     nth_error (RankedPortfolio scenario_outcome) (S i) = Some b ->
     isnan (momentum b) = true \/ geb (momentum a) (momentum b) = true) /\
  ((forall r, In r scenario -> above r = true -> isnan (momentum r) = false) ->
   descending_by_momentum (RankedPortfolio scenario_outcome)).
Proof.
  apply (ranked_descending_nan_last scenario 2 scenario_outcome).
  reflexivity.
Defined.

(** C6. For a wallet size of at least one, the ranked portfolio has
    [min(wallet_size, number of rows with current_price > moving_average)]
    rows. *)
Theorem portfolio_length
  (metrics : list MetricRow) (wallet_size : Z) (o : Outcome) :
  1 <= wallet_size ->
  rank_block (pd_DataFrame metrics) wallet_size = ok o ->
  len (RankedPortfolio o) = Z.min wallet_size (len (filter above metrics)).
Proof.
  intros Hw Ho. destruct (rank_block_portfolio _ _ _ Ho) as [-> _].
  rewrite head_length by lia.
  unfold len. now rewrite nargsort_desc_length.
Qed.

Lemma portfolio_length_witness :
  len (RankedPortfolio scenario_outcome) = Z.min 2 (len (filter above scenario)).
Proof.
  apply (portfolio_length scenario 2 scenario_outcome).
  - vm_compute. discriminate.
  - reflexivity.
Defined.

(** C7, as stated, fails: with a momentum period of one month and a
    moving average period of three, a record of exactly [momentum_window]
    = 21 observations yields no row. *)
Lemma exact_window_excluded_by_longer_average :
  len (data month_item) = momentum_window one_and_three /\
  emit one_and_three month_item = None /\
  df_metrics (calculate_metrics [month_item] one_and_three) = pd_DataFrame [].
Proof. repeat split; reflexivity. Qed.

(** C7, amended. With a momentum period of at least one month: a record
    with [momentum_window - 1] observations yields no row, whatever the
    moving average period; a record with exactly [momentum_window]
    observations yields a row if and only if the moving average window is
    not longer than the momentum window (the moving average period being
    at least one month). *)
Theorem exact_window_boundary (params : Params) (item : HistoryItem) :
  0 < p_momentum params ->
  (len (data item) = momentum_window params - 1 ->
   emit params item = None) /\
  (0 < p_moving_average params ->
   len (data item) = momentum_window params ->
   ((exists r, emit params item = Some r) <->
    ma_window params <= momentum_window params)).
Proof.
  intros Hm. split.
  - intros Hlen. apply emit_none_short; [exact Hm|lia].
  - intros Ha Hlen. rewrite (emit_some_iff params item Hm Ha), Hlen. lia.
Qed.

Lemma exact_window_boundary_witness :
  (len (data short_item) = momentum_window one_month - 1 ->
   emit one_month short_item = None) /\
  (0 < p_moving_average one_month ->
   len (data short_item) = momentum_window one_month ->
   ((exists r, emit one_month short_item = Some r) <->
    ma_window one_month <= momentum_window one_month)).
Proof.
  apply (exact_window_boundary one_month short_item).
  reflexivity.
Defined.

(** C8. On every history, every pair of periods and every wallet size the
    body of the engine returns (the outer handler is never entered) and
    the ranking block returns an outcome: nothing is raised.  The empty
    history gives a metrics frame without rows, on which the ranked
    portfolio is empty; and a frame with rows of which none passes the
    filter ends in the warning branch, with an empty portfolio. *)
Theorem no_exception_escapes
  (history : list HistoryItem) (params : Params) (wallet_size : Z) :
  (exists run, calculate_metrics_body history params = ok run) /\
  (exists o, pipeline history params wallet_size = ok o) /\
  (forall momentum_days ma_days,
     exists r, analysis history momentum_days ma_days wallet_size = ok r) /\
  rows (df_metrics (calculate_metrics [] params)) = [] /\
  (exists o, pipeline [] params wallet_size = ok o /\ RankedPortfolio o = []) /\
  (forall metrics,
     metrics <> [] -> filter above metrics = [] ->
     rank_block (pd_DataFrame metrics) wallet_size = ok NoAssetPassed /\
     RankedPortfolio NoAssetPassed = []).
Proof.
  split; [|split; [|split; [|split; [|split]]]].
  - destruct (calculate_metrics_body_ok history params) as (run & H & _).
    now exists run.
  - rewrite pipeline_unfold. apply rank_block_total.
  - intros md ad. unfold analysis. destruct history as [|item rest].
    + eexists. reflexivity.
    + rewrite calculate_metrics_frame.
      destruct (rank_block_total
                  (emitted_rows {| p_momentum := md / 30;
                                   p_moving_average := ad / 30 |} (item :: rest))
                  wallet_size) as [o ->].
      eexists. reflexivity.
  - reflexivity.
  - exists MetricsError. split; reflexivity.
  - intros metrics Hne Hf. rewrite rank_block_spec, Hf.
    destruct metrics; [congruence|]. split; reflexivity.
Qed.

(** C9. A run of the engine leaves the history with rewritten indexes; a
    second run on the history as the first run left it, with the same
    periods and wallet size, computes the same metrics frame, leaves the
    history as it found it, and ranks the same portfolio. *)
Theorem rerun_is_identical
  (history : list HistoryItem) (params : Params) (wallet_size : Z) :
  let first_run := calculate_metrics history params in
  let second_run := calculate_metrics (history_after first_run) params in
  df_metrics second_run = df_metrics first_run /\
  history_after second_run = history_after first_run /\
  pipeline (history_after first_run) params wallet_size =
    pipeline history params wallet_size.
Proof.
  cbv zeta. rewrite !pipeline_unfold, !calculate_metrics_frame,
    !calculate_metrics_history, emitted_rows_normalized.
  split; [reflexivity|]. split; [|reflexivity].
  rewrite map_map. apply map_ext. intros item.
  unfold normalize_item. simpl. now rewrite normalize_index_idem.
Qed.

(** C10. The rows of the ranked portfolio, together with some remaining
    rows, are a rearrangement of the rows of the metrics frame: each is
    one of those rows, taken once, with all five fields as the engine
    computed them. *)
Theorem ranker_only_selects
  (metrics : list MetricRow) (wallet_size : Z) (o : Outcome) :
  rank_block (pd_DataFrame metrics) wallet_size = ok o ->
  (exists rest, Permutation (RankedPortfolio o ++ rest) metrics) /\
  (forall r, In r (RankedPortfolio o) ->
     exists r', In r' metrics /\
                m_ticker r = m_ticker r' /\
                current_day r = current_day r' /\
                current_price r = current_price r' /\
                momentum r = momentum r' /\
                moving_average r = moving_average r').
Proof.
  intros Ho. split.
  - destruct (rank_block_portfolio _ _ _ Ho) as [-> _].
    destruct (portfolio_perm (filter above metrics) wallet_size) as [rest Hperm].
    exists (rest ++ filter (fun x => negb (above x)) metrics).
    rewrite app_assoc.
    eapply perm_trans; [apply Permutation_app_tail, Hperm|].
    apply filter_partition_perm.
  - intros r Hr. exists r.
    destruct (portfolio_in_filter _ _ _ r Ho Hr) as [Hin _].
    repeat split. exact Hin.
Qed.

Lemma ranker_only_selects_witness :
  (exists rest, Permutation (RankedPortfolio scenario_outcome ++ rest) scenario) /\
  (forall r, In r (RankedPortfolio scenario_outcome) ->
     exists r', In r' scenario /\
                m_ticker r = m_ticker r' /\
                current_day r = current_day r' /\
                current_price r = current_price r' /\
                momentum r = momentum r' /\
                moving_average r = moving_average r').
Proof.
  apply (ranker_only_selects scenario 2 scenario_outcome).
  reflexivity.
Defined.

(* ------------------------------------------------------------------ *)
(** ** Further properties of the engine *)

Lemma average_stage_row (tma : Z) (tk : string) (df : DataFrame)
  (mom : float64) (r : MetricRow) :
  average_stage tma tk df mom = ok (Some r) ->
  exists day,
    iloc (index df) (-1) = ok day /\
    current_day r = strftime_Ymd day /\
    iloc (col_Close df) (-1) = ok (current_price r).
Proof.
  unfold average_stage.
  destruct (len (tail tma df) <? tma); [discriminate|].
  destruct (rolling_mean tma _) as [e|rolled]; [discriminate|]. simpl.
  destruct (iloc rolled (-1)) as [e|ma]; [discriminate|]. simpl.
  destruct (iloc (index df) (-1)) as [e|day]; [discriminate|]. simpl.
  destruct (iloc (col_Close df) (-1)) as [e|price]; [discriminate|]. simpl.
  unfold ok. intros [= <-]. exists day. repeat split.
Qed.

Lemma index_normalize (df : DataFrame) :
  index (normalize_index df) =
    map (fun t => tz_localize_none (to_datetime_utc t)) (index df).
Proof. unfold index, normalize_index. now rewrite !map_map. Qed.

(** A row of the metrics frame names its record, prices it at the last
    close and dates it at the day, in UTC, of the last index entry. *)
Theorem emitted_row_fields (params : Params) (item : HistoryItem)
  (r : MetricRow) :
  emit params item = Some r ->
  m_ticker r = ticker item /\
  iloc (col_Close (data item)) (-1) = ok (current_price r) /\
  exists day,
    iloc (index (data item)) (-1) = ok day /\
    current_day r = strftime_Ymd (tz_localize_none (to_datetime_utc day)).
Proof.
  intros Hr. split; [now apply emit_ticker with (params := params)|].
  unfold emit, emit_item in Hr.
  destruct (item_metrics _ _ _ _) as [e|[r'|]] eqn:E; try discriminate.
  apply Some_inj in Hr. subst r'.
  destruct (item_metrics_some_stage _ _ _ _ _ E) as (mom & Hs).
  destruct (average_stage_row _ _ _ _ _ Hs) as (day & Hday & Hcd & Hprice).
  rewrite col_Close_normalize in Hprice. split; [exact Hprice|].
  rewrite index_normalize, iloc_map in Hday.
  destruct (iloc (index (data item)) (-1)) as [e|day0]; [discriminate|].
  exists day0. split; [reflexivity|].
  unfold ok in Hday. injection Hday as <-. exact Hcd.
Qed.

(** The row the engine emits for the one-month fixture. *)
Definition month_row : MetricRow :=
  {| m_ticker := "AAA"; current_day := "2022-01-28";
     current_price := Fin (120 # 1);
     momentum := Fin (20 # 100);
     moving_average := Fin (2310 # 21) |}.

Lemma emitted_row_fields_witness :
  m_ticker month_row = ticker month_item /\
  iloc (col_Close (data month_item)) (-1) = ok (current_price month_row) /\
  exists day,
    iloc (index (data month_item)) (-1) = ok day /\
    current_day month_row =
      strftime_Ymd (tz_localize_none (to_datetime_utc day)).
Proof.
  apply (emitted_row_fields one_month month_item month_row).
  reflexivity.
Defined.

(** An index entry after the rewrite: timezone-naive, at the wall clock
    of UTC for the same instant. *)
Definition naive_utc_of (t t' : Timestamp) : Prop :=
  utcoffset t' = None /\
  wall t' = wall t - match utcoffset t with Some off => off | None => 0 end.

(** What a call leaves of the history it was given: the same records in
    the same order, each with its ticker and its closes untouched and with
    every index entry made timezone-naive at the UTC wall clock of its
    instant.  That holds for the records that were skipped or that raised
    as for the others. *)
Theorem engine_rewrites_only_the_index
  (history : list HistoryItem) (params : Params) :
  Forall2 (fun before after =>
             ticker after = ticker before /\
             col_Close (data after) = col_Close (data before) /\
             Forall2 naive_utc_of (index (data before)) (index (data after)))
          history (history_after (calculate_metrics history params)).
Proof.
  rewrite calculate_metrics_history.
  induction history as [|item rest IH]; cbn [map]; constructor; [|exact IH].
  unfold normalize_item. cbn [ticker data].
  split; [reflexivity|]. split; [apply col_Close_normalize|].
  rewrite index_normalize.
  induction (index (data item)) as [|t ts IHt]; cbn [map]; constructor;
    [|exact IHt].
  split; [reflexivity|]. simpl. destruct (utcoffset t); lia.
Qed.

(** The warnings one pass of the loop logs for a record. *)
Definition item_warnings (tm tma : Z) (item : HistoryItem) : list LogRecord :=
  match item_metrics tm tma (ticker item) (normalize_index (data item)) with
  | inl e => [WarningProcess (ticker item) e]
  | inr _ => []
  end.

Lemma process_items_log (tm tma : Z) (history_data : list HistoryItem) :
  forall (metrics : list MetricRow) (log : list LogRecord),
    snd (process_items tm tma history_data metrics log) =
      log ++ flat_map (item_warnings tm tma) history_data.
Proof.
  induction history_data as [|item rest IH]; intros metrics log.
  - simpl. now rewrite app_nil_r.
  - cbn [process_items flat_map]. unfold item_warnings at 1.
    destruct (item_metrics tm tma (ticker item) (normalize_index (data item)))
      as [e|[r|]].
    + specialize (IH metrics (log ++ [WarningProcess (ticker item) e])).
      destruct (process_items tm tma rest metrics _) as [[h' m'] l'].
      simpl in *. subst l'. now rewrite <- app_assoc.
    + specialize (IH (metrics ++ [r]) log).
      destruct (process_items tm tma rest (metrics ++ [r]) log) as [[h' m'] l'].
      simpl in *. exact IH.
    + specialize (IH metrics log).
      destruct (process_items tm tma rest metrics log) as [[h' m'] l'].
      simpl in *. exact IH.
Qed.

Lemma calculate_metrics_logged (history : list HistoryItem) (params : Params) :
  logged (calculate_metrics history params) =
    InfoCalculating (len history)
      :: flat_map (item_warnings (momentum_window params) (ma_window params))
                  history
      ++ [InfoCalculated (len (emitted_rows params history))].
Proof.
  unfold calculate_metrics, calculate_metrics_body.
  pose proof (process_items_spec (21 * p_momentum params)
                (21 * p_moving_average params) history
                [] [InfoCalculating (len history)]) as [_ H2].
  pose proof (process_items_log (21 * p_momentum params)
                (21 * p_moving_average params) history
                [] [InfoCalculating (len history)]) as H3.
  destruct (process_items _ _ history [] _) as [[h' m'] l'].
  simpl in H2, H3. subst m' l'. cbn [logged ok].
  rewrite rows_pd_DataFrame. reflexivity.
Qed.

(** With positive windows the loop body raises nothing. *)
Lemma item_metrics_never_raises (tm tma : Z) (tk : string) (df : DataFrame) :
  0 < tm -> 0 < tma -> exists v, item_metrics tm tma tk df = ok v.
Proof.
  intros Htm Htma.
  destruct (Z_lt_le_dec (len df) tm) as [Hlt|Hle].
  { eexists. now apply item_metrics_short_momentum. }
  destruct (item_metrics_momentum_done tm tma tk df Htm Hle) as (l & f & _ & _ & ->).
  destruct (Z_lt_le_dec (len df) tma) as [Hlt'|Hle'].
  { eexists. now apply average_stage_short. }
  destruct (average_stage_enough tma tk df (sub (div l f) one) Htma Hle')
    as (day & price & _ & _ & ->).
  eexists. reflexivity.
Qed.

(** With both periods of at least one month a call logs two records and
    no more: how many records it was given and how many rows it computed.
    A record left out for want of history leaves no trace in the log. *)
Theorem insufficient_history_is_silent
  (history : list HistoryItem) (params : Params) :
  0 < p_momentum params ->
  0 < p_moving_average params ->
  logged (calculate_metrics history params) =
    [ InfoCalculating (len history);
      InfoCalculated (len (rows (df_metrics (calculate_metrics history params)))) ].
Proof.
  intros Hm Ha. rewrite calculate_metrics_logged, calculate_metrics_rows.
  replace (flat_map _ history) with (@nil LogRecord); [reflexivity|].
  symmetry. induction history as [|item rest IH]; simpl; [reflexivity|].
  rewrite IH, app_nil_r. unfold item_warnings.
  destruct (item_metrics_never_raises (momentum_window params) (ma_window params)
              (ticker item) (normalize_index (data item))) as [v ->];
    [unfold momentum_window; lia | unfold ma_window; lia | reflexivity].
Qed.

Lemma insufficient_history_is_silent_witness :
  logged (calculate_metrics [short_item; month_item] one_month) =
    [ InfoCalculating (len [short_item; month_item]);
      InfoCalculated
        (len (rows (df_metrics
                      (calculate_metrics [short_item; month_item] one_month)))) ].
Proof.
  apply (insufficient_history_is_silent [short_item; month_item] one_month);
    reflexivity.
Defined.

(** With a momentum period of zero months no record yields a row: for
    each one the loop body raises [IndexError] (the last close of an empty
    tail), the handler logs a warning naming the ticker, and the metrics
    frame comes out without rows or columns. *)
Theorem zero_momentum_period_warns
  (history : list HistoryItem) (params : Params) :
  p_momentum params = 0 ->
  df_metrics (calculate_metrics history params) = pd_DataFrame [] /\
  logged (calculate_metrics history params) =
    InfoCalculating (len history)
      :: map (fun item => WarningProcess (ticker item) IndexError) history
      ++ [InfoCalculated 0].
Proof.
  intros H0.
  assert (Hraise : forall item,
             item_metrics (momentum_window params) (ma_window params)
               (ticker item) (normalize_index (data item)) = raise IndexError).
  { intros item. unfold momentum_window. rewrite H0. reflexivity. }
  assert (Hrows : emitted_rows params history = []).
  { unfold emitted_rows, emit, emit_item.
    induction history as [|item rest IH]; simpl; [reflexivity|].
    now rewrite Hraise, IH. }
  split.
  - now rewrite calculate_metrics_frame, Hrows.
  - rewrite calculate_metrics_logged, Hrows. f_equal. f_equal.
    induction history as [|item rest IH]; simpl; [reflexivity|].
    unfold item_warnings at 1. rewrite Hraise. simpl. f_equal.
    apply IH. unfold emitted_rows, emit, emit_item.
    clear IH Hrows. induction rest as [|item' rest' IH']; simpl; [reflexivity|].
    now rewrite Hraise, IH'.
Qed.

Lemma zero_momentum_period_warns_witness :
  df_metrics (calculate_metrics [month_item]
                {| p_momentum := 0; p_moving_average := 1 |}) = pd_DataFrame [] /\
  logged (calculate_metrics [month_item]
            {| p_momentum := 0; p_moving_average := 1 |}) =
    InfoCalculating (len [month_item])
      :: map (fun item => WarningProcess (ticker item) IndexError) [month_item]
      ++ [InfoCalculated 0].
Proof.
  apply (zero_momentum_period_warns [month_item]
           {| p_momentum := 0; p_moving_average := 1 |}).
  reflexivity.
Defined.

(** Whether a record is long enough for both windows. *)
Definition enough_history (params : Params) (item : HistoryItem) : bool :=
  Z.max (momentum_window params) (ma_window params) <=? len (data item).

(** With both periods of at least one month, the tickers of the metrics
    frame are the tickers of the records that are long enough for both
    windows, in the order of the history and as often as they occur. *)
Theorem metrics_follow_history
  (history : list HistoryItem) (params : Params) :
  0 < p_momentum params ->
  0 < p_moving_average params ->
  map m_ticker (rows (df_metrics (calculate_metrics history params))) =
    map ticker (filter (enough_history params) history).
Proof.
  intros Hm Ha. rewrite calculate_metrics_rows. unfold emitted_rows.
  induction history as [|item rest IH]; simpl; [reflexivity|].
  rewrite map_app, IH. unfold enough_history at 2.
  destruct (emit params item) as [r|] eqn:E.
  - assert (Hex : exists r, emit params item = Some r) by now exists r.
    apply (emit_some_iff params item Hm Ha) in Hex.
    apply Z.leb_le in Hex. rewrite Hex. simpl.
    now rewrite (emit_ticker params item r E).
  - destruct (Z.leb_spec (Z.max (momentum_window params) (ma_window params))
                         (len (data item))) as [Hle|Hlt]; [|reflexivity].
    apply (emit_some_iff params item Hm Ha) in Hle.
    destruct Hle as [r Hr]. congruence.
Qed.

Lemma metrics_follow_history_witness :
  map m_ticker
      (rows (df_metrics
               (calculate_metrics [short_item; month_item; long_item] one_month))) =
    map ticker (filter (enough_history one_month)
                       [short_item; month_item; long_item]).
Proof.
  apply (metrics_follow_history [short_item; month_item; long_item] one_month);
    reflexivity.
Defined.

(* ------------------------------------------------------------------ *)
(** ** Further properties of the ranking block *)

Lemma leb_Fin (a b : Q) : leb (Fin a) (Fin b) = true <-> (a <= b)%Q.
Proof.
  unfold leb. simpl. rewrite Qle_alt.
  destruct (Qcompare a b); split; congruence.
Qed.

Lemma leb_true_notnan (x y : float64) :
  leb x y = true -> isnan x = false /\ isnan y = false.
Proof. destruct x, y; simpl; try discriminate; auto. Qed.

Lemma leb_trans (x y z : float64) :
  leb x y = true -> leb y z = true -> leb x z = true.
Proof.
  destruct x as [| |a|], y as [| |b|], z as [| |c|];
    try discriminate; try reflexivity.
  rewrite !leb_Fin. apply Qle_trans.
Qed.

Lemma descending_or_nan_trans (a b c : MetricRow) :
  descending_or_nan a b -> descending_or_nan b c -> descending_or_nan a c.
Proof.
  unfold descending_or_nan, geb. intros Hab [Hc|Hbc]; [now left|]. right.
  destruct (leb_true_notnan _ _ Hbc) as [_ Hb].
  destruct Hab as [Hnan|Hab]; [congruence|].
  now apply leb_trans with (y := momentum b).
Qed.

Lemma StronglySorted_cut {A : Type} (R : A -> A -> Prop) (n : nat) (l : list A) :
  StronglySorted R l ->
  forall a b, In a (firstn n l) -> In b (skipn n l) -> R a b.
Proof.
  revert l. induction n as [|n IH]; intros l Hs a b Ha Hb.
  - simpl in Ha. contradiction.
  - destruct l as [|x l]; [simpl in Ha; contradiction|].
    apply StronglySorted_inv in Hs. destruct Hs as [Hs Hx].
    simpl in Ha, Hb. destruct Ha as [<-|Ha].
    + rewrite Forall_forall in Hx. apply Hx.
      rewrite <- (firstn_skipn n l). apply in_or_app. now right.
    + now apply (IH l Hs).
Qed.

(** The ranked portfolio holds the best of the admitted rows: the rows
    that passed the filter split into the portfolio and the rows left
    out, and a row left out has a momentum no higher than that of any row
    of the portfolio, unless its momentum is [NaN]. *)
Theorem portfolio_holds_the_best
  (metrics : list MetricRow) (wallet_size : Z) (o : Outcome) :
  rank_block (pd_DataFrame metrics) wallet_size = ok o ->
  exists left_out,
    Permutation (RankedPortfolio o ++ left_out) (filter above metrics) /\
    forall r r', In r (RankedPortfolio o) -> In r' left_out ->
                 isnan (momentum r') = true \/
                 geb (momentum r) (momentum r') = true.
Proof.
  intros Ho. destruct (rank_block_portfolio _ _ _ Ho) as [-> _].
  set (sorted := nargsort_desc (filter above metrics)).
  exists (skipn (slice_bound sorted wallet_size) sorted). split.
  - rewrite head_is_firstn, firstn_skipn. apply nargsort_desc_perm.
  - rewrite head_is_firstn.
    apply (StronglySorted_cut descending_or_nan).
    apply Sorted_StronglySorted; [|apply nargsort_desc_sorted].
    intros a b c. apply descending_or_nan_trans.
Qed.

Lemma portfolio_holds_the_best_witness :
  exists left_out,
    Permutation (RankedPortfolio scenario_outcome ++ left_out)
                (filter above scenario) /\
    forall r r', In r (RankedPortfolio scenario_outcome) -> In r' left_out ->
                 isnan (momentum r') = true \/
                 geb (momentum r) (momentum r') = true.
Proof.
  apply (portfolio_holds_the_best scenario 2 scenario_outcome).
  reflexivity.
Defined.

(** A wallet at least as large as the number of admitted rows leaves none
    of them out: the ranked portfolio is a rearrangement of the rows that
    passed the filter. *)
Theorem large_wallet_keeps_all
  (metrics : list MetricRow) (wallet_size : Z) (o : Outcome) :
  len (filter above metrics) <= wallet_size ->
  rank_block (pd_DataFrame metrics) wallet_size = ok o ->
  Permutation (RankedPortfolio o) (filter above metrics).
Proof.
  intros Hw Ho. destruct (rank_block_portfolio _ _ _ Ho) as [-> _].
  rewrite head_is_firstn, firstn_all2; [apply nargsort_desc_perm|].
  unfold slice_bound, len in *. rewrite nargsort_desc_length.
  destruct (Z.ltb_spec wallet_size 0); lia.
Qed.

Lemma large_wallet_keeps_all_witness :
  Permutation (RankedPortfolio scenario_outcome) (filter above scenario).
Proof.
  apply (large_wallet_keeps_all scenario 2 scenario_outcome).
  - vm_compute. discriminate.
  - reflexivity.
Defined.

Lemma emitted_rows_nil_iff (params : Params) (history : list HistoryItem) :
  emitted_rows params history = [] <->
  forall item, In item history -> emit params item = None.
Proof.
  unfold emitted_rows. induction history as [|item rest IH]; simpl.
  - split; [intros _ item []|reflexivity].
  - split.
    + intros H. apply app_eq_nil in H. destruct H as [H1 H2].
      intros x [<-|Hx]; [|now apply IH].
      destruct (emit params item); [discriminate|reflexivity].
    + intros H. rewrite (H item (or_introl eq_refl)). simpl.
      apply IH. intros x Hx. apply H. now right.
Qed.

Lemma filter_nil_iff {A : Type} (f : A -> bool) (l : list A) :
  filter f l = [] <-> forall x, In x l -> f x = false.
Proof.
  induction l as [|a l IH]; simpl.
  - split; [intros _ x []|reflexivity].
  - destruct (f a) eqn:E; split.
    + discriminate.
    + intros H. specialize (H a (or_introl eq_refl)). congruence.
    + intros H x [<-|Hx]; [exact E|now apply IH].
    + intros H. apply IH. intros x Hx. apply H. now right.
Qed.

(** The branch the ranking block ends in, read off the history the
    engine was given. *)
Lemma pipeline_outcome
  (history : list HistoryItem) (params : Params) (wallet_size : Z)
  (o : Outcome) :
  0 < p_momentum params ->
  0 < p_moving_average params ->
  pipeline history params wallet_size = ok o ->
  (o = MetricsError <->
   forall item, In item history ->
     len (data item) < Z.max (momentum_window params) (ma_window params)) /\
  (o = NoAssetPassed <->
   (exists item, In item history /\
      Z.max (momentum_window params) (ma_window params) <= len (data item)) /\
   forall r, In r (rows (df_metrics (calculate_metrics history params))) ->
             above r = false) /\
  ((exists metrics_filter top_assets, o = TopAssets metrics_filter top_assets) <->
   exists r, In r (rows (df_metrics (calculate_metrics history params))) /\
             above r = true).
Proof.
  intros Hm Ha Ho.
  rewrite pipeline_unfold, rank_block_spec in Ho.
  unfold ok in Ho. injection Ho as Ho.
  rewrite calculate_metrics_rows.
  assert (Hshort : emitted_rows params history = [] <->
                   forall item, In item history ->
                     len (data item) <
                       Z.max (momentum_window params) (ma_window params)).
  { rewrite emitted_rows_nil_iff. split; intros H item Hin.
    - destruct (Z_lt_le_dec (len (data item))
                  (Z.max (momentum_window params) (ma_window params)))
        as [Hlt|Hle]; [exact Hlt|].
      apply (emit_some_iff params item Hm Ha) in Hle.
      destruct Hle as [r Hr]. rewrite (H item Hin) in Hr. discriminate.
    - destruct (emit params item) as [r|] eqn:E; [|reflexivity].
      assert (Hex : exists r, emit params item = Some r) by now exists r.
      apply (emit_some_iff params item Hm Ha) in Hex.
      specialize (H item Hin). lia. }
  assert (Hlong : emitted_rows params history <> [] <->
                  exists item, In item history /\
                    Z.max (momentum_window params) (ma_window params)
                      <= len (data item)).
  { split.
    - intros Hne. destruct (emitted_rows params history) as [|r rs] eqn:E;
        [congruence|].
      assert (Hin : In r (emitted_rows params history))
        by (rewrite E; now left).
      apply emitted_rows_in in Hin. destruct Hin as (item & Hin & Hr).
      exists item. split; [exact Hin|].
      apply (emit_some_iff params item Hm Ha). now exists r.
    - intros (item & Hin & Hle) Hnil.
      pose proof (proj1 Hshort Hnil item Hin). lia. }
  pose proof (filter_nil_iff above (emitted_rows params history)) as Hnone.
  destruct (emitted_rows params history) as [|r rs] eqn:E.
  - subst o. split; [|split].
    + split; [intros _; now apply Hshort|reflexivity].
    + split; [discriminate|]. intros [Hex _]. apply Hlong in Hex. congruence.
    + split; [intros (f & t & H); discriminate|]. intros (x & [] & _).
  - destruct (filter above (r :: rs)) as [|f fs] eqn:F; subst o.
    + split; [|split].
      * split; [discriminate|]. intros H. apply (proj2 Hshort) in H. discriminate.
      * split; [|reflexivity]. intros _. split.
        -- apply Hlong. discriminate.
        -- now apply Hnone.
      * split; [intros (f & t & H); discriminate|].
        intros (x & Hx & Hab). destruct Hnone as [Hnone _].
        rewrite (Hnone eq_refl x Hx) in Hab. discriminate.
    + split; [|split].
      * split; [discriminate|]. intros H. apply (proj2 Hshort) in H. discriminate.
      * split; [discriminate|]. intros [_ H].
        destruct Hnone as [_ Hnone]. specialize (Hnone H). discriminate.
      * split; [|intros _; eauto].
        intros _. exists f.
        assert (Hin : In f (filter above (r :: rs))) by (rewrite F; now left).
        apply filter_In in Hin. exact Hin.
Qed.

(** Which of its branches [main_app] ends in once the download is done,
    for the periods the form offers.  The loading error is shown exactly
    when no history was loaded; the error about the metrics exactly when
    some history was loaded and no record of it is long enough for both
    windows; the warning that no asset passed exactly when some record is
    long enough and no row has its price above its average; and a table
    of top assets exactly when some row has. *)
Theorem outcome_by_history
  (history : list HistoryItem) (momentum_days ma_days wallet_size : Z)
  (o : Outcome) (history' : list HistoryItem) :
  In momentum_days period_options ->
  In ma_days period_options ->
  analysis history momentum_days ma_days wallet_size = ok (o, history') ->
  let params := {| p_momentum := momentum_days / 30;
                   p_moving_average := ma_days / 30 |} in
  (o = LoadError <-> history = []) /\
  (o = MetricsError <->
   history <> [] /\
   forall item, In item history ->
     len (data item) < Z.max (momentum_window params) (ma_window params)) /\
  (o = NoAssetPassed <->
   (exists item, In item history /\
      Z.max (momentum_window params) (ma_window params) <= len (data item)) /\
   forall r, In r (rows (df_metrics (calculate_metrics history params))) ->
             above r = false) /\
  ((exists metrics_filter top_assets, o = TopAssets metrics_filter top_assets) <->
   exists r, In r (rows (df_metrics (calculate_metrics history params))) /\
             above r = true).
Proof.
  intros Hmd Had Hrun. cbv zeta.
  assert (Hm : 0 < momentum_days / 30)
    by (revert Hmd; unfold period_options; simpl;
        intros [<-|[<-|[<-|[]]]]; reflexivity).
  assert (Ha : 0 < ma_days / 30)
    by (revert Had; unfold period_options; simpl;
        intros [<-|[<-|[<-|[]]]]; reflexivity).
  set (params := {| p_momentum := momentum_days / 30;
                    p_moving_average := ma_days / 30 |}) in *.
  unfold analysis in Hrun. destruct history as [|item0 rest].
  - unfold ok in Hrun. injection Hrun as <- <-.
    split; [tauto|]. split; [split; [discriminate|intros [H _]; congruence]|].
    split.
    + split; [discriminate|]. intros [(item & [] & _) _].
    + split; [intros (f & t & H); discriminate|]. intros (r & [] & _).
  - fold params in Hrun.
    destruct (rank_block (df_metrics (calculate_metrics (item0 :: rest) params))
                wallet_size) as [e|o'] eqn:Ho; [discriminate|].
    simpl in Hrun. unfold ok in Hrun. injection Hrun as <- <-.
    destruct (pipeline_outcome (item0 :: rest) params wallet_size o' Hm Ha Ho)
      as (H1 & H2 & H3).
    split; [|split; [|split; [exact H2|exact H3]]].
    + split; [|discriminate]. intros ->.
      rewrite calculate_metrics_frame, rank_block_spec in Ho. unfold ok in Ho.
      destruct (emitted_rows params (item0 :: rest)); [discriminate|].
      destruct (filter above _); discriminate.
    + rewrite H1. split; [intros H; split; [discriminate|exact H]|tauto].
Qed.

Lemma outcome_by_history_witness :
  let params := {| p_momentum := 30 / 30; p_moving_average := 30 / 30 |} in
  (fixture_outcome = LoadError <-> [short_item; month_item] = []) /\
  (fixture_outcome = MetricsError <->
   [short_item; month_item] <> [] /\
   forall item, In item [short_item; month_item] ->
     len (data item) < Z.max (momentum_window params) (ma_window params)) /\
  (fixture_outcome = NoAssetPassed <->
   (exists item, In item [short_item; month_item] /\
      Z.max (momentum_window params) (ma_window params) <= len (data item)) /\
   forall r, In r (rows (df_metrics
                           (calculate_metrics [short_item; month_item] params))) ->
             above r = false) /\
  ((exists metrics_filter top_assets,
      fixture_outcome = TopAssets metrics_filter top_assets) <->
   exists r, In r (rows (df_metrics
                           (calculate_metrics [short_item; month_item] params))) /\
             above r = true).
Proof.
  apply (outcome_by_history [short_item; month_item] 30 30 5 fixture_outcome
           (map normalize_item [short_item; month_item])).
  - vm_compute. tauto.
  - vm_compute. tauto.
  - vm_compute. reflexivity.
Defined.

(** No history loaded: the loading error, not the error about the
    metrics. *)
Example empty_history_is_a_load_error :
  analysis [] 30 30 5 = ok (LoadError, []).
Proof. reflexivity. Qed.

(* ------------------------------------------------------------------ *)
(** ** What the numbers of a row say *)

Lemma emit_moving_average (params : Params) (item : HistoryItem) (r : MetricRow) :
  0 < p_moving_average params ->
  emit params item = Some r ->
  ma_window params <= len (data item) /\
  moving_average r =
    arithmetic_mean
      (prep_values (trailing (ma_window params) (col_Close (data item)))).
Proof.
  intros Ha Hr.
  assert (Htma : 0 < ma_window params) by (unfold ma_window; lia).
  unfold emit, emit_item in Hr.
  destruct (item_metrics _ _ _ _) as [e|[r'|]] eqn:E; try discriminate.
  apply Some_inj in Hr. subst r'.
  destruct (item_metrics_some_stage _ _ _ _ _ E) as (mom & Hs).
  destruct (Z_lt_le_dec (len (normalize_index (data item))) (ma_window params))
    as [Hlt|Hle].
  { rewrite (average_stage_short _ _ _ _ Htma Hlt) in Hs. discriminate. }
  destruct (average_stage_enough (ma_window params) (ticker item)
              (normalize_index (data item)) mom Htma Hle)
    as (day & price & _ & _ & Hs').
  rewrite Hs' in Hs. unfold ok in Hs. injection Hs as <-.
  rewrite len_normalize in Hle. split; [exact Hle|].
  simpl. now rewrite col_Close_normalize.
Qed.


Lemma emit_current_price (params : Params) (item : HistoryItem) (r : MetricRow) :
  emit params item = Some r ->
  iloc (col_Close (data item)) (-1) = ok (current_price r).
Proof.
  intros Hr. unfold emit, emit_item in Hr.
  destruct (item_metrics _ _ _ _) as [e|[r'|]] eqn:E; try discriminate.
  apply Some_inj in Hr. subst r'.
  destruct (item_metrics_some_stage _ _ _ _ _ E) as (mom & Hs).
  destruct (average_stage_row _ _ _ _ _ Hs) as (day & _ & _ & Hprice).
  now rewrite col_Close_normalize in Hprice.
Qed.

Lemma not_above_not_ranked (r : MetricRow) :
  above r = false ->
  forall metrics wallet_size o,
    rank_block (pd_DataFrame metrics) wallet_size = ok o ->
    ~ In r (RankedPortfolio o).
Proof.
  intros Hr metrics w o Ho Hin.
  destruct (portfolio_in_filter _ _ _ r Ho Hin) as [_ Hab]. congruence.
Qed.

Lemma iloc_In {A : Type} (s : list A) (i : Z) (v : A) :
  iloc s i = ok v -> In v s.
Proof.
  unfold iloc. destruct (_ || _); [discriminate|].
  destruct (nth_error s _) as [x|] eqn:E; [|discriminate].
  unfold ok. intros [= <-]. now apply nth_error_In in E.
Qed.

Lemma trailing_In {A : Type} (n : Z) (xs : list A) (x : A) :
  In x (trailing n xs) -> In x xs.
Proof.
  unfold trailing. intros H. apply in_rev in H.
  apply in_rev. rewrite <- (firstn_skipn (Z.to_nat n) (rev xs)).
  apply in_or_app. now left.
Qed.

(** A close missing in the moving average window keeps the record out of
    every portfolio: with a moving average period of at least one month,
    a row emitted for a record that has a [NaN] among the closes of its
    trailing [ma_window] observations (the last close is one of them) has
    a [NaN] moving average, does not pass the filter, and is in no ranked
    portfolio. *)
Theorem missing_close_keeps_out
  (params : Params) (item : HistoryItem) (r : MetricRow) :
  0 < p_moving_average params ->
  emit params item = Some r ->
  (exists c, In c (trailing (ma_window params) (col_Close (data item))) /\
             isnan c = true) ->
  moving_average r = NaN /\
  above r = false /\
  forall metrics wallet_size o,
    rank_block (pd_DataFrame metrics) wallet_size = ok o ->
    ~ In r (RankedPortfolio o).
Proof.
  intros Ha Hr (c & Hin & Hc).
  destruct (emit_moving_average params item r Ha Hr) as [_ Hma].
  assert (Hnan : moving_average r = NaN).
  { rewrite Hma. unfold arithmetic_mean, sum.
    rewrite fold_add_has_NaN; [reflexivity|].
    destruct (forallb notnan _) eqn:F; [|reflexivity].
    rewrite forallb_forall in F.
    assert (Hin' : In NaN (prep_values
                             (trailing (ma_window params)
                                       (col_Close (data item))))).
    { unfold prep_values. apply in_map_iff. exists c. split; [|exact Hin].
      destruct c; simpl in Hc; try discriminate. reflexivity. }
    specialize (F NaN Hin'). discriminate. }
  assert (Hab : above r = false).
  { unfold above. rewrite Hnan. now destruct (current_price r). }
  split; [exact Hnan|]. split; [exact Hab|].
  now apply not_above_not_ranked.
Qed.

(** A record of 63 bars whose last close is missing. *)
Definition unpriced_item : HistoryItem :=
  {| ticker := "U";
     data := rising 62 ++ [ {| date := utc_day 19062; Close := NaN |} ] |}.

Definition unpriced_row : MetricRow :=
  {| m_ticker := "U"; current_day := "2022-03-11";
     current_price := NaN; momentum := NaN; moving_average := NaN |}.

Lemma missing_close_keeps_out_witness :
  moving_average unpriced_row = NaN /\
  above unpriced_row = false /\
  forall metrics wallet_size o,
    rank_block (pd_DataFrame metrics) wallet_size = ok o ->
    ~ In unpriced_row (RankedPortfolio o).
Proof.
  apply (missing_close_keeps_out three_and_one unpriced_item unpriced_row).
  - reflexivity.
  - vm_compute. reflexivity.
  - exists NaN. split; [|reflexivity]. vm_compute. tauto.
Defined.






Lemma fold_add_constant (c : Q) (xs : list float64) :
  Forall (fun x => x = Fin c) xs ->
  forall acc, exists q,
    fold_left add xs (Fin acc) = Fin q /\
    (q == acc + inject_Z (len xs) * c)%Q.
Proof.
  induction 1 as [|x xs Hx Hxs IH]; intros acc.
  - exists acc. split; [reflexivity|]. unfold len. simpl. ring.
  - subst x. simpl. destruct (IH (acc + c)%Q) as (q & -> & Hq).
    exists q. split; [reflexivity|]. rewrite Hq.
    unfold len. cbn [List.length]. rewrite Nat2Z.inj_succ, <- Z.add_1_r.
    rewrite inject_Z_plus. ring.
Qed.

Lemma arithmetic_mean_constant (c : Q) (xs : list float64) :
  xs <> [] -> Forall (fun x => x = Fin c) xs ->
  exists q, arithmetic_mean xs = Fin q /\ (q == c)%Q.
Proof.
  intros Hne Hall. unfold arithmetic_mean, sum, zero, of_Z.
  destruct (fold_add_constant c xs Hall (inject_Z 0)) as (q & -> & Hq).
  assert (Hpos : (0 < inject_Z (len xs))%Q).
  { change 0%Q with (inject_Z 0). rewrite <- Zlt_Qlt.
    unfold len. destruct xs; [congruence|]. simpl. lia. }
  unfold div. replace (Qsign (inject_Z (len xs))) with Gt
    by (symmetry; apply Qgt_alt; exact Hpos).
  eexists. split; [reflexivity|].
  rewrite Hq. change (inject_Z 0) with 0%Q. field.
  intros H. rewrite H in Hpos. discriminate.
Qed.

(** A price that never moved is never ranked: with a moving average
    period of at least one month, a row emitted for a record whose closes
    are all the same finite number has its current price equal to its
    moving average, so it fails the strict filter and is in no ranked
    portfolio. *)
Theorem flat_series_never_ranked
  (params : Params) (item : HistoryItem) (r : MetricRow) (c : Q) :
  0 < p_moving_average params ->
  Forall (fun x => x = Fin c) (col_Close (data item)) ->
  emit params item = Some r ->
  eqb (current_price r) (moving_average r) = true /\
  above r = false /\
  forall metrics wallet_size o,
    rank_block (pd_DataFrame metrics) wallet_size = ok o ->
    ~ In r (RankedPortfolio o).
Proof.
  intros Ha Hall Hr.
  destruct (emit_moving_average params item r Ha Hr) as [Hle Hma].
  pose proof (emit_current_price params item r Hr) as Hprice.
  apply iloc_In in Hprice. rewrite Forall_forall in Hall.
  pose proof (Hall _ Hprice) as Hp.
  set (win := trailing (ma_window params) (col_Close (data item))) in *.
  assert (Hwin : Forall (fun x => x = Fin c) win).
  { apply Forall_forall. intros x Hx. apply Hall. now apply trailing_In in Hx. }
  assert (Hne : win <> []).
  { intros Hnil.
    assert (Hlen : len win = ma_window params).
    { apply trailing_length. unfold col_Close. rewrite len_map.
      unfold ma_window in *. lia. }
    rewrite Hnil in Hlen. change (len (@nil float64)) with 0 in Hlen.
    unfold ma_window in Hlen. lia. }
  destruct (arithmetic_mean_constant c win Hne Hwin) as (q & Hq & Hqc).
  assert (Hprep : prep_values win = win).
  { apply prep_values_no_inf, forallb_forall. intros x Hx.
    rewrite Forall_forall in Hwin. now rewrite (Hwin x Hx). }
  assert (Heq : eqb (current_price r) (moving_average r) = true).
  { rewrite Hp, Hma, Hprep, Hq. unfold eqb. cbn [compare].
    replace (Qcompare c q) with Eq; [reflexivity|].
    symmetry. apply Qeq_alt. now symmetry. }
  split; [exact Heq|].
  assert (Hab : above r = false) by (unfold above; now apply eqb_not_gtb).
  split; [exact Hab|]. now apply not_above_not_ranked.
Qed.

(** 21 daily bars that all close at 50. *)
Definition flat_item : HistoryItem :=
  {| ticker := "F";
     data := map (fun i => {| date := utc_day (19000 + Z.of_nat i);
                              Close := Fin (50 # 1) |}) (seq 0 21) |}.

Definition flat_row : MetricRow :=
  {| m_ticker := "F"; current_day := "2022-01-28";
     current_price := Fin (50 # 1);
     momentum := Fin (0 # 50);
     moving_average := Fin (1050 # 21) |}.

Lemma flat_series_never_ranked_witness :
  eqb (current_price flat_row) (moving_average flat_row) = true /\
  above flat_row = false /\
  forall metrics wallet_size o,
    rank_block (pd_DataFrame metrics) wallet_size = ok o ->
    ~ In flat_row (RankedPortfolio o).
Proof.
  apply (flat_series_never_ranked one_month flat_item flat_row (50 # 1)).
  - reflexivity.
  - vm_compute. repeat constructor.
  - vm_compute. reflexivity.
Defined.

(* ------------------------------------------------------------------ *)
(** ** The analysis as the form starts it *)

Lemma period_option_months (days : Z) :
  In days period_options -> 0 < days / 30.
Proof.
  unfold period_options. simpl.
  intros [<-|[<-|[<-|[]]]]; reflexivity.
Qed.

(** Whatever the user selects in the form (periods of 30, 90 or 180 days,
    a wallet of 5, 10, 15 or 20): the longer of the two windows is 21, 63
    or 126 observations; the run ends in the loading error exactly when
    no history was loaded; the portfolio has at most [wallet_size] rows;
    and each of its rows has its price above its average and belongs to a
    loaded record with that ticker and at least as many observations as
    the longer window. *)
Theorem analysis_of_form_choices
  (history : list HistoryItem) (momentum_days ma_days wallet_size : Z)
  (o : Outcome) (history' : list HistoryItem) :
  In momentum_days period_options ->
  In ma_days period_options ->
  In wallet_size wallet_options ->
  analysis history momentum_days ma_days wallet_size = ok (o, history') ->
  In (Z.max (21 * (momentum_days / 30)) (21 * (ma_days / 30))) [21; 63; 126] /\
  (o = LoadError <-> history = []) /\
  len (RankedPortfolio o) <= wallet_size /\
  (forall r, In r (RankedPortfolio o) ->
     above r = true /\
     exists item, In item history /\
                  ticker item = m_ticker r /\
                  Z.max (21 * (momentum_days / 30)) (21 * (ma_days / 30))
                    <= len (data item)).
Proof.
  intros Hmd Had Hw Hrun.
  pose proof (period_option_months _ Hmd) as Hm.
  pose proof (period_option_months _ Had) as Ha.
  split.
  { unfold period_options in Hmd, Had. simpl in Hmd, Had.
    destruct Hmd as [<-|[<-|[<-|[]]]]; destruct Had as [<-|[<-|[<-|[]]]];
      vm_compute; tauto. }
  assert (Hw0 : 0 <= wallet_size).
  { unfold wallet_options in Hw. simpl in Hw.
    destruct Hw as [<-|[<-|[<-|[<-|[]]]]]; lia. }
  unfold analysis in Hrun. destruct history as [|item0 rest].
  { unfold ok in Hrun. injection Hrun as <- <-.
    split; [tauto|]. split; [simpl; exact Hw0|]. intros r []. }
  set (params := {| p_momentum := momentum_days / 30;
                    p_moving_average := ma_days / 30 |}) in *.
  set (history := item0 :: rest) in *.
  rewrite calculate_metrics_frame in Hrun.
  destruct (rank_block _ wallet_size) as [e|o'] eqn:Ho; [discriminate|].
  simpl in Hrun. unfold ok in Hrun. injection Hrun as <- <-.
  split; [|split].
  - split; [|discriminate]. intros ->.
    rewrite rank_block_spec in Ho. unfold ok in Ho.
    destruct (emitted_rows params history); [discriminate|].
    destruct (filter above _); discriminate.
  - destruct (rank_block_portfolio _ _ _ Ho) as [-> _].
    rewrite head_length by exact Hw0. lia.
  - intros r Hr.
    destruct (portfolio_in_filter _ _ _ r Ho Hr) as [Hin Hab].
    split; [exact Hab|].
    apply emitted_rows_in in Hin. destruct Hin as (item & Hin & Hemit).
    exists item. split; [exact Hin|]. split.
    + symmetry. now apply emit_ticker with (params := params).
    + apply (emit_some_iff params item Hm Ha). now exists r.
Qed.

Lemma analysis_of_form_choices_witness :
  In (Z.max (21 * (30 / 30)) (21 * (30 / 30))) [21; 63; 126] /\
  (fixture_outcome = LoadError <-> [short_item; month_item] = []) /\
  len (RankedPortfolio fixture_outcome) <= 5 /\
  (forall r, In r (RankedPortfolio fixture_outcome) ->
     above r = true /\
     exists item, In item [short_item; month_item] /\
                  ticker item = m_ticker r /\
                  Z.max (21 * (30 / 30)) (21 * (30 / 30)) <= len (data item)).
Proof.
  apply (analysis_of_form_choices [short_item; month_item] 30 30 5
           fixture_outcome (map normalize_item [short_item; month_item])).
  - vm_compute. tauto.
  - vm_compute. tauto.
  - vm_compute. tauto.
  - vm_compute. reflexivity.
Defined.

(* ------------------------------------------------------------------ *)
(** ** Ticker names from the universe to the metrics frame *)

Lemma contains_char_app (c : ascii) (s t : string) :
  contains_char c (s ++ t) = contains_char c s || contains_char c t.
Proof.
  induction s as [|x s IH]; simpl; [reflexivity|].
  now rewrite IH, orb_assoc.
Qed.

Lemma split_dot_first_no_dot (s : string) :
  contains_char "."%char (split_dot_first s) = false.
Proof.
  induction s as [|c s IH]; simpl; [reflexivity|].
  destruct (Ascii.eqb c ".") eqn:E; simpl; [reflexivity|].
  now rewrite E, IH.
Qed.

Lemma split_dot_first_app (s t : string) :
  contains_char "."%char s = false ->
  split_dot_first (s ++ String "."%char t) = s.
Proof.
  induction s as [|c s IH]; simpl; [reflexivity|].
  intros H. apply orb_false_iff in H. destruct H as [Hc Hs].
  now rewrite Hc, IH.
Qed.

Lemma basename_app (p n : string) :
  contains_char "/"%char n = false ->
  basename (p ++ String "/"%char n) = n.
Proof.
  intros Hn. induction p as [|c p IH]; simpl.
  - now rewrite Hn.
  - rewrite contains_char_app. simpl. now rewrite orb_true_r.
Qed.

Lemma replace_csv_other (c : ascii) (rest : string) :
  Ascii.eqb c "."%char = false ->
  replace_csv (String c rest) = String c (replace_csv rest).
Proof.
  intros H. destruct rest as [|c1 [|c2 [|c3 r]]];
    cbn [replace_csv]; rewrite ?H; reflexivity.
Qed.

Lemma replace_csv_stem (stem : string) :
  contains_char "."%char stem = false ->
  replace_csv (stem ++ ".csv") = stem.
Proof.
  induction stem as [|c s IH]; [reflexivity|].
  intros H. simpl in H. apply orb_false_iff in H. destruct H as [Hc Hs].
  change (String c s ++ ".csv")%string with (String c (s ++ ".csv")).
  now rewrite (replace_csv_other c _ Hc), IH.
Qed.

Lemma loaded_ticker_is_stem_aux (path tk : string) :
  contains_char "/"%char (split_dot_first tk) = false ->
  loaded_ticker (file_path path tk) = split_dot_first tk.
Proof.
  intros Hslash. unfold loaded_ticker, file_path.
  change (path ++ "/" ++ split_dot_first tk ++ ".csv")%string
    with (path ++ String "/"%char (split_dot_first tk ++ ".csv"))%string.
  rewrite basename_app.
  - apply replace_csv_stem, split_dot_first_no_dot.
  - rewrite contains_char_app, Hslash. reflexivity.
Qed.

(** The ticker under which a history is loaded is the ticker it was
    downloaded for, cut at its first dot: [load_history_data] recovers
    from the file that [extract_history_data] wrote, in whatever folder,
    the stem of the file name, provided the stem holds no slash. *)
Theorem loaded_ticker_is_stem (path tk : string) :
  contains_char "/"%char (split_dot_first tk) = false ->
  loaded_ticker (file_path path tk) = split_dot_first tk.
Proof.
  exact (loaded_ticker_is_stem_aux path tk).
Qed.

Lemma loaded_ticker_is_stem_witness :
  loaded_ticker (file_path (create_temp_path "temp_1" "sp500 (hoje)") "BRK.B") =
    split_dot_first "BRK.B".
Proof.
  apply (loaded_ticker_is_stem (create_temp_path "temp_1" "sp500 (hoje)") "BRK.B").
  reflexivity.
Defined.

(** A B3 ticker comes back as it was listed: for a raw ticker without dot
    and without slash, the history downloaded under the Yahoo Finance name
    that [transform_tickers] gives it is loaded under the raw ticker
    again, and so are all the tickers of a list of such. *)
Theorem transformed_ticker_round_trip (path : string) (tickers : list string) :
  Forall (fun tk => contains_char "."%char tk = false /\
                    contains_char "/"%char tk = false) tickers ->
  map (fun yahoo => loaded_ticker (file_path path yahoo))
      (transform_tickers tickers) = tickers.
Proof.
  unfold transform_tickers. rewrite map_map.
  induction 1 as [|tk rest [Hdot Hslash] Hrest IH]; simpl; [reflexivity|].
  rewrite IH. f_equal.
  assert (Hstem : split_dot_first (tk ++ ".SA") = tk)
    by (apply (split_dot_first_app tk "SA"); exact Hdot).
  rewrite loaded_ticker_is_stem_aux; [exact Hstem|].
  now rewrite Hstem.
Qed.

Lemma transformed_ticker_round_trip_witness :
  map (fun yahoo => loaded_ticker (file_path "./temp/k/ibrx100" yahoo))
      (transform_tickers ["PETR4"; "VALE3"]%string) = ["PETR4"; "VALE3"]%string.
Proof.
  apply (transformed_ticker_round_trip "./temp/k/ibrx100" ["PETR4"; "VALE3"]%string).
  repeat constructor.
Defined.

(* ------------------------------------------------------------------ *)
(** ** Who gets to the analysis *)

Lemma truthy_str_true (s : string) : truthy_str s = true <-> s <> EmptyString.
Proof.
  unfold truthy_str. destruct (String.eqb_spec s EmptyString); simpl; split;
    congruence.
Qed.

Lemma authenticate_user_iff_aux (environ : Environ) (username password : string) :
  fst (authenticate_user environ username password) = true <->
  env_USER environ = Some username /\
  env_PASSWORD environ = Some password /\
  username <> EmptyString /\ password <> EmptyString.
Proof.
  unfold authenticate_user.
  destruct (env_USER environ) as [u|], (env_PASSWORD environ) as [p|];
    cbn [truthy_opt negb orb fst str_eq_opt];
    try (rewrite ?orb_true_r; cbn [fst];
         split; [discriminate | intros (H1 & H2 & _); discriminate]).
  destruct (truthy_str u) eqn:Tu, (truthy_str p) eqn:Tp; cbn [negb orb fst].
  - apply truthy_str_true in Tu, Tp.
    rewrite andb_true_iff, !String.eqb_eq. split.
    + intros [-> ->]. auto.
    + intros (H1 & H2 & _). split; congruence.
  - split; [discriminate|]. intros (_ & H2 & _ & Hp).
    apply truthy_str_true in Hp.
    assert (truthy_str p = true) by (apply truthy_str_true; congruence).
    congruence.
  - split; [discriminate|]. intros (H1 & _ & Hu & _).
    assert (truthy_str u = true) by (apply truthy_str_true; congruence).
    congruence.
  - split; [discriminate|]. intros (H1 & _ & Hu & _).
    assert (truthy_str u = true) by (apply truthy_str_true; congruence).
    congruence.
Qed.

(** Credentials are accepted exactly when both environment variables are
    set to non-empty strings and the user name and the password typed are
    those strings. *)
Theorem authenticate_user_iff (environ : Environ) (username password : string) :
  fst (authenticate_user environ username password) = true <->
  env_USER environ = Some username /\
  env_PASSWORD environ = Some password /\
  username <> EmptyString /\ password <> EmptyString.
Proof. exact (authenticate_user_iff_aux environ username password). Qed.

Lemma logout_clears (st : SessionState) : show_logout_button st = [].
Proof.
  unfold show_logout_button. induction st as [|[k v] rest IH]; [reflexivity|].
  cbn [map fst fold_left session_del]. now rewrite String.eqb_refl.
Qed.

(** Logging out leaves nothing of the session and leads back to the login
    form: on a session that shows the analysis page, a press on the
    logout button empties the session state, whatever it held, and the
    next page is the login form. *)
Theorem logout_returns_to_login (environ : Environ) (st : SessionState) :
  main st = MainApp ->
  interact environ st PressLogout = [] /\
  main (interact environ st PressLogout) = LoginForm.
Proof.
  intros H. unfold interact. rewrite H, logout_clears. split; reflexivity.
Qed.

Lemma logout_returns_to_login_witness :
  interact {| env_USER := Some "u"; env_PASSWORD := Some "p" |}%string
           [("authenticated", VBool true); ("username", VStr "u")]%string
           PressLogout = [] /\
  main (interact {| env_USER := Some "u"; env_PASSWORD := Some "p" |}%string
                 [("authenticated", VBool true); ("username", VStr "u")]%string
                 PressLogout) = LoginForm.
Proof.
  apply (logout_returns_to_login
           {| env_USER := Some "u"; env_PASSWORD := Some "p" |}%string
           [("authenticated", VBool true); ("username", VStr "u")]%string).
  reflexivity.
Defined.

(** The session a successful login of [username] leaves. *)
Definition logged_in (username : string) : SessionState :=
  [("authenticated", VBool true); ("username", VStr username)]%string.

Lemma interact_from_empty (environ : Environ) (ev : Event) :
  interact environ [] ev = [] \/
  exists username password,
    ev = SubmitLogin username password /\
    fst (authenticate_user environ username password) = true /\
    interact environ [] ev = logged_in username.
Proof.
  destruct ev as [u p|]; [|now left].
  unfold interact. change (main []) with LoginForm. cbv beta iota.
  unfold show_login_form.
  destruct (negb (truthy_str u) || negb (truthy_str p)); [now left|].
  destruct (authenticate_user environ u p) as [granted shown] eqn:E.
  destruct granted; [|now left].
  right. exists u, p. split; [reflexivity|]. split; [now rewrite E|].
  reflexivity.
Qed.

Lemma interact_from_logged_in (environ : Environ) (username : string)
  (ev : Event) :
  interact environ (logged_in username) ev = [] \/
  interact environ (logged_in username) ev = logged_in username.
Proof.
  destruct ev as [u p|]; [now right|]. left.
  unfold interact. change (main (logged_in username)) with MainApp.
  apply logout_clears.
Qed.

(** The analysis page is shown only to who logged in: starting from a
    fresh session, after any sequence of form submissions and logout
    presses, if the page shown is the analysis then one of the
    submissions carried the configured, non-empty user name and password,
    and the session records that user name. *)
Theorem analysis_page_only_after_login (environ : Environ) (evs : list Event) :
  main (interactions environ [] evs) = MainApp ->
  exists username password,
    In (SubmitLogin username password) evs /\
    env_USER environ = Some username /\
    env_PASSWORD environ = Some password /\
    username <> EmptyString /\ password <> EmptyString /\
    session_get (interactions environ [] evs) "username" (VStr EmptyString) =
      VStr username.
Proof.
  assert (Inv : interactions environ [] evs = [] \/
                exists u p, In (SubmitLogin u p) evs /\
                            fst (authenticate_user environ u p) = true /\
                            interactions environ [] evs = logged_in u).
  { unfold interactions. induction evs as [|ev evs IH] using rev_ind.
    - now left.
    - rewrite fold_left_app. cbn [fold_left].
      destruct IH as [->|(u & p & Hin & Hauth & ->)].
      + destruct (interact_from_empty environ ev)
          as [->|(u & p & -> & Hauth & ->)]; [now left|].
        right. exists u, p. split; [|split; [exact Hauth|reflexivity]].
        apply in_or_app. right. now left.
      + destruct (interact_from_logged_in environ u ev) as [->| ->];
          [now left|].
        right. exists u, p. split; [|split; [exact Hauth|reflexivity]].
        apply in_or_app. now left. }
  intros Hmain. destruct Inv as [E|(u & p & Hin & Hauth & E)].
  - rewrite E in Hmain. discriminate.
  - apply authenticate_user_iff_aux in Hauth.
    destruct Hauth as (Hu & Hp & Hune & Hpne).
    exists u, p. rewrite E. repeat split; auto.
Qed.

(** A configured deployment and a session with a failed and a good login. *)
Definition configured : Environ :=
  {| env_USER := Some "admin"%string; env_PASSWORD := Some "secret"%string |}.

Definition two_attempts : list Event :=
  [SubmitLogin "admin" "guess"; SubmitLogin "admin" "secret"]%string.

Lemma analysis_page_only_after_login_witness :
  exists username password,
    In (SubmitLogin username password) two_attempts /\
    env_USER configured = Some username /\
    env_PASSWORD configured = Some password /\
    username <> EmptyString /\ password <> EmptyString /\
    session_get (interactions configured [] two_attempts) "username"
                (VStr EmptyString) = VStr username.
Proof.
  apply (analysis_page_only_after_login configured two_attempts).
  reflexivity.
Defined.

(* ------------------------------------------------------------------ *)
(** ** What the log panel shows *)

Lemma iloc_last_app {A : Type} (l : list A) (x : A) :
  iloc (l ++ [x]) (-1) = ok x.
Proof.
  destruct (iloc_neg (l ++ [x]) (-1)) as (v & Hv & ->).
  { unfold len. rewrite length_app. cbn [List.length]. lia. }
  unfold len in Hv. rewrite length_app in Hv. cbn [List.length] in Hv.
  rewrite nth_error_app2 in Hv by lia.
  replace (Z.to_nat (-1 + Z.of_nat (List.length l + 1)) - List.length l)%nat
    with 0%nat in Hv by lia.
  cbn [nth_error] in Hv. apply Some_inj in Hv. now subst.
Qed.

(** Every record logged is kept and the panel shows the ten latest: a
    call of [emit] appends one entry to the log, carrying the level and
    the message of the record; the panel then shows the last ten entries
    of the log (all of them while there are fewer), oldest first, so its
    last line is the entry just logged. *)
Theorem panel_shows_latest_ten
  (logs : list StreamlitLogHandler.LogEntry) (now levelname msg : string) :
  let entry := {| StreamlitLogHandler.timestamp := now;
                  StreamlitLogHandler.level := levelname;
                  StreamlitLogHandler.emoji :=
                    StreamlitLogHandler.emoji_of levelname;
                  StreamlitLogHandler.message := msg |} in
  let logs' := fst (StreamlitLogHandler.emit logs now levelname msg) in
  let shown := map snd (snd (StreamlitLogHandler.emit logs now levelname msg)) in
  logs' = logs ++ [entry] /\
  shown = trailing (Z.min 10 (len logs')) logs' /\
  len shown = Z.min 10 (len logs') /\
  iloc shown (-1) = ok entry.
Proof.
  cbv zeta. unfold StreamlitLogHandler.emit, StreamlitLogHandler.render.
  cbn [fst snd]. rewrite map_map. cbn [snd]. rewrite map_id.
  set (entry := StreamlitLogHandler.Build_LogEntry now levelname
                  (StreamlitLogHandler.emoji_of levelname) msg).
  set (logs' := logs ++ [entry]).
  assert (Hpos : 0 < len logs').
  { unfold logs', len. rewrite length_app. cbn [List.length]. lia. }
  change (slice_from logs' (-10)) with (tail 10 logs').
  split; [reflexivity|].
  destruct (Z_lt_le_dec (len logs') 10) as [Hlt|Hle].
  - rewrite (tail_short 10 logs') by lia.
    rewrite Z.min_r by lia. split; [|split].
    + unfold trailing. unfold len. rewrite Nat2Z.id.
      rewrite <- (length_rev logs'), firstn_all. now rewrite rev_involutive.
    + reflexivity.
    + apply iloc_last_app.
  - rewrite Z.min_l by lia. split; [|split].
    + apply tail_is_trailing; lia.
    + now destruct (tail_enough 10 logs') as [_ ->]; try lia.
    + rewrite iloc_tail_last by lia. apply iloc_last_app.
Qed.

(* ------------------------------------------------------------------ *)
(** ** Records are treated one by one, on their trailing window *)

(** The rows of a history in two parts are the rows of the first part
    followed by the rows of the second, for any periods: what happens to
    one record, be it skipped or an exception caught, changes nothing for
    the others. *)
Theorem records_are_independent
  (first_part second_part : list HistoryItem) (params : Params) :
  rows (df_metrics (calculate_metrics (first_part ++ second_part) params)) =
    rows (df_metrics (calculate_metrics first_part params)) ++
    rows (df_metrics (calculate_metrics second_part params)).
Proof.
  rewrite !calculate_metrics_rows. unfold emitted_rows. apply flat_map_app.
Qed.

(** The row of a record that is long enough, field by field. *)
Lemma emit_enough (params : Params) (item : HistoryItem) :
  0 < p_momentum params ->
  0 < p_moving_average params ->
  Z.max (momentum_window params) (ma_window params) <= len (data item) ->
  exists last_close first_close day,
    iloc (col_Close (data item)) (-1) = ok last_close /\
    iloc (col_Close (data item)) (- momentum_window params) = ok first_close /\
    iloc (index (data item)) (-1) = ok day /\
    emit params item =
      Some {| m_ticker := ticker item;
              current_day := strftime_Ymd (tz_localize_none (to_datetime_utc day));
              current_price := last_close;
              momentum := sub (div last_close first_close) one;
              moving_average :=
                arithmetic_mean
                  (prep_values (trailing (ma_window params)
                                         (col_Close (data item)))) |}.
Proof.
  intros Hm Ha Hle.
  assert (Htm : 0 < momentum_window params) by (unfold momentum_window; lia).
  assert (Htma : 0 < ma_window params) by (unfold ma_window; lia).
  pose proof (len_normalize (data item)) as Hlen.
  destruct (item_metrics_momentum_done (momentum_window params) (ma_window params)
              (ticker item) (normalize_index (data item)) Htm)
    as (l & f & Hl & Hf & E); [lia|].
  destruct (average_stage_enough (ma_window params) (ticker item)
              (normalize_index (data item)) (sub (div l f) one) Htma)
    as (day & price & Hday & Hprice & E'); [lia|].
  rewrite col_Close_normalize in Hl, Hf, Hprice, E'.
  rewrite Hl in Hprice. unfold ok in Hprice. injection Hprice as <-.
  rewrite index_normalize, iloc_map in Hday.
  destruct (iloc (index (data item)) (-1)) as [e|day0]; [discriminate|].
  unfold ok in Hday. injection Hday as <-.
  exists l, f, day0. repeat split; auto.
  unfold emit, emit_item. now rewrite E, E'.
Qed.

Lemma iloc_app_neg {A : Type} (older s : list A) (i : Z) :
  - len s <= i < 0 -> iloc (older ++ s) i = iloc s i.
Proof.
  intros H.
  destruct (iloc_neg s i H) as (v & Hv & ->).
  destruct (iloc_neg (older ++ s) i) as (v' & Hv' & ->).
  { unfold len in *. rewrite length_app. lia. }
  unfold len in Hv'. rewrite length_app in Hv'.
  rewrite nth_error_app2 in Hv' by (unfold len in H; lia).
  replace (Z.to_nat (i + Z.of_nat (List.length older + List.length s))
           - List.length older)%nat
    with (Z.to_nat (i + len s)) in Hv' by (unfold len in *; lia).
  congruence.
Qed.

Lemma trailing_app {A : Type} (n : Z) (older s : list A) :
  n <= len s -> trailing n (older ++ s) = trailing n s.
Proof.
  intros H. unfold trailing. rewrite rev_app_distr, firstn_app.
  replace (Z.to_nat n - List.length (rev s))%nat with 0%nat
    by (rewrite length_rev; unfold len in H; lia).
  now rewrite firstn_O, app_nil_r.
Qed.

(** Only the trailing window counts: with both periods of at least one
    month, a record that is long enough for both windows yields the same
    row, in every field, whatever older observations are put in front of
    it. *)
Theorem older_observations_do_not_matter
  (params : Params) (tk : string) (older df : DataFrame) :
  0 < p_momentum params ->
  0 < p_moving_average params ->
  Z.max (momentum_window params) (ma_window params) <= len df ->
  emit params {| ticker := tk; data := older ++ df |} =
    emit params {| ticker := tk; data := df |}.
Proof.
  intros Hm Ha Hle.
  assert (Htm : 0 < momentum_window params) by (unfold momentum_window; lia).
  assert (Hlen : len (older ++ df) = len older + len df).
  { unfold len. rewrite length_app. lia. }
  pose proof (len_nonneg older) as Hold.
  destruct (emit_enough params {| ticker := tk; data := older ++ df |} Hm Ha)
    as (l1 & f1 & d1 & Hl1 & Hf1 & Hd1 & ->); [cbn [data]; lia|].
  destruct (emit_enough params {| ticker := tk; data := df |} Hm Ha)
    as (l2 & f2 & d2 & Hl2 & Hf2 & Hd2 & ->); [cbn [data]; lia|].
  cbn [data ticker] in *.
  unfold col_Close, index in *.
  assert (Hc : len (map Close df) = len df) by apply len_map.
  assert (Hi : len (map date df) = len df) by apply len_map.
  rewrite map_app in Hl1, Hf1, Hd1.
  rewrite iloc_app_neg in Hl1 by lia.
  rewrite iloc_app_neg in Hf1 by lia.
  rewrite iloc_app_neg in Hd1 by lia.
  rewrite map_app, trailing_app by lia.
  unfold ok in *. congruence.
Qed.

Lemma older_observations_do_not_matter_witness :
  emit one_month {| ticker := "AAA"; data := rising 5 ++ rising 21 |} =
    emit one_month {| ticker := "AAA"; data := rising 21 |}.
Proof.
  apply (older_observations_do_not_matter one_month "AAA" (rising 5) (rising 21)).
  - reflexivity.
  - reflexivity.
  - vm_compute. discriminate.
Defined.

(** The instant an index entry denotes, in nanoseconds of UTC. *)
Definition instant (t : Timestamp) : Z :=
  wall t - match utcoffset t with Some off => off | None => 0 end.

Lemma normalize_by_instant (t t' : Timestamp) :
  instant t = instant t' ->
  tz_localize_none (to_datetime_utc t) = tz_localize_none (to_datetime_utc t').
Proof.
  unfold instant, tz_localize_none, to_datetime_utc. simpl.
  destruct (utcoffset t), (utcoffset t'); intros H; f_equal; lia.
Qed.

(** The engine sees instants, not time zones: two records with the same
    ticker and the same closes whose index entries denote, one by one,
    the same instants (written with whatever offsets to UTC, or without)
    yield the same row or both none, for any periods. *)
Theorem time_zone_does_not_matter
  (params : Params) (tk : string) (df df' : DataFrame) :
  col_Close df = col_Close df' ->
  map instant (index df) = map instant (index df') ->
  emit params {| ticker := tk; data := df |} =
    emit params {| ticker := tk; data := df' |}.
Proof.
  intros Hc Hi. unfold emit, emit_item. cbn [ticker data].
  replace (normalize_index df') with (normalize_index df); [reflexivity|].
  unfold col_Close, index in *. rewrite !map_map in Hi.
  revert df' Hc Hi. induction df as [|b df IH]; intros [|b' df'] Hc Hi;
    try discriminate; [reflexivity|].
  cbn [map] in *. injection Hc as Hc0 Hc. injection Hi as Hi0 Hi.
  cbn [normalize_index map]. f_equal.
  - now rewrite (normalize_by_instant _ _ Hi0), Hc0.
  - now apply IH.
Qed.

(** The one-month fixture with its index written at UTC-03:00. *)
Definition month_frame_brt : DataFrame :=
  map (fun i => {| date := {| wall := (19000 + Z.of_nat i) * ns_per_day
                                      - 10800000000000;
                              utcoffset := Some (-10800000000000) |};
                   Close := of_Z (100 + Z.of_nat i) |}) (seq 0 21).

Lemma time_zone_does_not_matter_witness :
  emit one_month {| ticker := "AAA"; data := rising 21 |} =
    emit one_month {| ticker := "AAA"; data := month_frame_brt |}.
Proof.
  apply (time_zone_does_not_matter one_month "AAA" (rising 21) month_frame_brt).
  - reflexivity.
  - vm_compute. reflexivity.
Defined.

(** A larger wallet only adds rows at the end: for wallet sizes
    [0 <= small <= large], the ranked portfolio for the small wallet is
    the first [small] rows of the ranked portfolio for the large one. *)
Theorem larger_wallet_extends
  (metrics : list MetricRow) (small large : Z) (o_small o_large : Outcome) :
  0 <= small <= large ->
  rank_block (pd_DataFrame metrics) small = ok o_small ->
  rank_block (pd_DataFrame metrics) large = ok o_large ->
  RankedPortfolio o_small = head small (RankedPortfolio o_large).
Proof.
  intros Hw Hs Hl.
  destruct (rank_block_portfolio _ _ _ Hs) as [-> _].
  destruct (rank_block_portfolio _ _ _ Hl) as [-> _].
  set (sorted := nargsort_desc (filter above metrics)).
  rewrite !head_is_firstn, firstn_firstn. f_equal.
  unfold slice_bound.
  replace (small <? 0) with false by (symmetry; apply Z.ltb_ge; lia).
  replace (large <? 0) with false by (symmetry; apply Z.ltb_ge; lia).
  unfold len. rewrite length_firstn. lia.
Qed.

Lemma larger_wallet_extends_witness :
  RankedPortfolio
    (TopAssets
       {| columns := metric_columns;
          rows := [ row "A" (of_Z 11) (Fin (10 # 100)) (of_Z 10);
                    row "C" (of_Z 12) (Fin (20 # 100)) (of_Z 10) ] |}
       {| columns := metric_columns;
          rows := [ row "C" (of_Z 12) (Fin (20 # 100)) (of_Z 10) ] |}) =
    head 1 (RankedPortfolio scenario_outcome).
Proof.
  apply (larger_wallet_extends scenario 1 2).
  - lia.
  - reflexivity.
  - reflexivity.
Defined.
